(** * assembly_example: pose synthesis and the screw-progress controller

    A shallow embedding of [scripts/assembly_example.py].  Python floats are
    IEEE-754 binary64 numbers; they are modelled by Rocq's primitive floats,
    which implement the same format with round-to-nearest-even, so that the
    comparisons, the NaN cases and the rounded constants of the script are
    the ones the interpreter computes. *)

From Stdlib Require Import Floats ZArith List Bool Lia.
From Stdlib Require Strings.String.
Import ListNotations.

(* Decimal literals such as 0.006 are rounded to the nearest binary64 value,
   exactly as the Python parser does. *)
Set Warnings "-inexact-float".

(** ** The screw-progress controller: [AssemblyDemo.screw] *)

Module Screw.

Local Open Scope float_scope.

(** [np.pi] (= [math.pi] = 3.141592653589793). *)
Definition np_pi : float := 0x1.921fb54442d18p+1.

(** The joint vector of the planning group "panda_arm": seven joints,
    [joint_goal[6]] is the wrist rotation. *)
Record joint_values := Joints {
  joint0 : float; joint1 : float; joint2 : float; joint3 : float;
  joint4 : float; joint5 : float; joint6 : float }.

(** [joint_goal[6] = v] *)
Definition set_joint6 (v : float) (g : joint_values) : joint_values :=
  {| joint0 := joint0 g; joint1 := joint1 g; joint2 := joint2 g;
     joint3 := joint3 g; joint4 := joint4 g; joint5 := joint5 g;
     joint6 := v |}.

(** What the controller asks of its collaborators, in program order. *)
Inductive action : Type :=
| SetMaxVelocityScaling (k : Z)
| SetMaxAccelerationScaling (k : Z)
| HandGo (finger1 finger2 : float)   (* move_group_hand.go([0.04, 0.04], wait=True) *)
| HandStop                            (* move_group_hand.stop() *)
| GraspGoal (width inner outer force speed : float) (* grasp_action_pub.publish *)
| Sleep (secs : Z)                    (* rospy.sleep *)
| ArmGo (joint_goal : joint_values)   (* move_group.go(joint_goal, wait=True) *)
| ArmStop                             (* move_group.stop() *)
| WaitScrewPos                        (* rospy.wait_for_message('/screw_pos', ...) *)
| Print (values : list float).        (* print(...) *)

(** The collaborators' answers.  [joint_reads k] is what the k-th call of
    [move_group.get_current_joint_values()] returns; [screw_pos k] is the
    z-coordinate of the k-th message on [/screw_pos], or [None] when no such
    message ever arrives ([wait_for_message] has no timeout and blocks). *)
Record env := Env {
  joint_reads : nat -> joint_values;
  screw_pos : nat -> option float }.

(** [open_gripper]: both finger joints to 0.04, then stop.  The value of
    [all_close] it returns is dropped by every caller in [screw]. *)
Definition open_gripper : list action := [HandGo 0.04 0.04; HandStop].

(** [close_gripper]: one grasp goal is published, nothing is awaited. *)
Definition close_gripper : list action := [GraspGoal 0.03 0.01 0.01 10 0.05].

(** The local variables of [screw] while the loop runs, the number of
    completed iterations, and the actions issued so far. *)
Record state := State {
  z0 : float; z1 : float; z2 : float;
  iters : nat;
  log : list action }.

Inductive outcome : Type :=
| NoEntrySample (l : list action)  (* blocked on the message read before the loop *)
| Done (s : state)                 (* the loop test failed: [screw] returns *)
| Blocked (s : state)              (* blocked inside the loop, waiting for a sample *)
| Running (s : state).             (* still looping when the fuel ran out *)

(** Line 207: [while z0 - z2 < 0.006]. *)
Definition loop_test (s : state) : bool := z0 s - z2 s <? 0.006.

(** Lines 210-221: the two arms of the [if] on [joint_goal[6]]. *)
Definition reset_actions (joint_goal : joint_values) : list action :=
  open_gripper ++ [ArmGo (set_joint6 (-7 * np_pi / 8) joint_goal); ArmStop].

Definition engage_actions (joint_goal : joint_values) : list action :=
  close_gripper ++
  [Sleep 1; ArmGo (set_joint6 (7 * np_pi / 8) joint_goal); ArmStop].

Definition actuate (joint_goal : joint_values) : list action :=
  if np_pi / 2 <=? joint6 joint_goal    (* joint_goal[6] >= np.pi / 2 *)
  then reset_actions joint_goal
  else engage_actions joint_goal.

(** Lines 209-225: one pass through the loop body, up to the blocking read. *)
Definition body_actions (e : env) (s : state) : list action :=
  actuate (joint_reads e (S (iters s))) ++ [WaitScrewPos].

Definition issue (s : state) (l : list action) : state :=
  {| z0 := z0 s; z1 := z1 s; z2 := z2 s; iters := iters s;
     log := log s ++ l |}.

(** Line 225: [z2 = screw_pos_msg.point.z], and the iteration is complete. *)
Definition sampled (s : state) (z : float) : state :=
  {| z0 := z0 s; z1 := z1 s; z2 := z; iters := S (iters s); log := log s |}.

Fixpoint screw_loop (e : env) (fuel : nat) (s : state) : outcome :=
  if loop_test s then
    match fuel with
    | O => Running s
    | S fuel' =>
        let s' := issue s (body_actions e s) in
        match screw_pos e (S (iters s)) with
        | None => Blocked s'
        | Some z => screw_loop e fuel' (sampled s' z)
        end
    end
  else Done s.

(** Lines 189-197: what [screw] does before the first message read. *)
Definition prelude (e : env) : list action :=
  [SetMaxVelocityScaling 1; SetMaxAccelerationScaling 1] ++
  open_gripper ++
  [ArmGo (set_joint6 (-7 * np_pi / 8) (joint_reads e 0)); ArmStop;
   WaitScrewPos].

(** Lines 199-205: the state in which the loop is entered. *)
Definition entry (e : env) (z : float) : state :=
  {| z0 := z; z1 := z; z2 := z; iters := 0;
     log := prelude e ++ [Print [z; z; z]] |}.   (* print(z0, z1, z2) *)

Definition screw (e : env) (fuel : nat) : outcome :=
  match screw_pos e 0 with
  | None => NoEntrySample (prelude e)
  | Some z => screw_loop e fuel (entry e z)
  end.

(** The actions of the first [n] passes through the loop body. *)
Fixpoint passes (e : env) (n : nat) : list action :=
  match n with
  | O => []
  | S m => passes e m ++ actuate (joint_reads e (S m)) ++ [WaitScrewPos]
  end.

(** The state after [n] complete passes, [zn] being the last sample read. *)
Definition after (e : env) (z : float) (n : nat) (zn : float) : state :=
  {| z0 := z; z1 := z; z2 := zn; iters := n;
     log := prelude e ++ [Print [z; z; z]] ++ passes e n |}.

(** What can be observed of a run: how it ended, after how many complete
    passes, and the requests made of the gripper, the arm and the sensor
    (everything but the console output). *)
Inductive verdict : Type := AtEntry | Finished | Stalled | Looping.

Definition is_actuation (a : action) : bool :=
  match a with
  | Print _ => false
  | _ => true
  end.

Record observation := Observation {
  how : verdict;
  passes_done : nat;
  requests : list action }.

Definition observe (o : outcome) : observation :=
  match o with
  | NoEntrySample l => Observation AtEntry 0 (filter is_actuation l)
  | Done s => Observation Finished (iters s) (filter is_actuation (log s))
  | Blocked s => Observation Stalled (iters s) (filter is_actuation (log s))
  | Running s => Observation Looping (iters s) (filter is_actuation (log s))
  end.

Definition final_state (o : outcome) : option state :=
  match o with
  | NoEntrySample _ => None
  | Done s | Blocked s | Running s => Some s
  end.

End Screw.

(** ** The controller without the variable [z1]

    [screw] with line 202 ([z1 = z0]) deleted and [z1] dropped from the
    [print] of line 205; everything else is as in [Screw]. *)

Module ScrewNoZ1.

Import Screw.
Local Open Scope float_scope.

Record state := State {
  z0 : float; z2 : float;
  iters : nat;
  log : list action }.

Inductive outcome : Type :=
| NoEntrySample (l : list action)
| Done (s : state)
| Blocked (s : state)
| Running (s : state).

Definition loop_test (s : state) : bool := z0 s - z2 s <? 0.006.

Definition body_actions (e : env) (s : state) : list action :=
  actuate (joint_reads e (S (iters s))) ++ [WaitScrewPos].

Definition issue (s : state) (l : list action) : state :=
  {| z0 := z0 s; z2 := z2 s; iters := iters s; log := log s ++ l |}.

Definition sampled (s : state) (z : float) : state :=
  {| z0 := z0 s; z2 := z; iters := S (iters s); log := log s |}.

Fixpoint screw_loop (e : env) (fuel : nat) (s : state) : outcome :=
  if loop_test s then
    match fuel with
    | O => Running s
    | S fuel' =>
        let s' := issue s (body_actions e s) in
        match screw_pos e (S (iters s)) with
        | None => Blocked s'
        | Some z => screw_loop e fuel' (sampled s' z)
        end
    end
  else Done s.

Definition entry (e : env) (z : float) : state :=
  {| z0 := z; z2 := z; iters := 0;
     log := prelude e ++ [Print [z; z]] |}.        (* print(z0, z2) *)

Definition screw (e : env) (fuel : nat) : outcome :=
  match screw_pos e 0 with
  | None => NoEntrySample (prelude e)
  | Some z => screw_loop e fuel (entry e z)
  end.

Definition observe (o : outcome) : observation :=
  match o with
  | NoEntrySample l => Observation AtEntry 0 (filter is_actuation l)
  | Done s => Observation Finished (iters s) (filter is_actuation (log s))
  | Blocked s => Observation Stalled (iters s) (filter is_actuation (log s))
  | Running s => Observation Looping (iters s) (filter is_actuation (log s))
  end.

End ScrewNoZ1.

(** ** Pose synthesis: lines 311-338 of [main] *)

(** A Python computation returns a value or raises. *)
Inductive exn : Type := ValueError | ZeroDivisionError.

Inductive py (A : Type) : Type :=
| Ret (a : A)
| Raise (e : exn).
Arguments Ret {A} a.
Arguments Raise {A} e.

Definition bind {A B : Type} (m : py A) (k : A -> py B) : py B :=
  match m with
  | Ret a => k a
  | Raise e => Raise e
  end.

Notation "x <- m ;; k" := (bind m (fun x => k))
  (at level 61, m at next level, right associativity).

Module Pose.

(** Indexing a sequence of four by 0..3. *)
Definition at4 {A : Type} (x0 x1 x2 x3 : A) (i : nat) : A :=
  match i with
  | 0 => x0
  | 1 => x1
  | 2 => x2
  | _ => x3
  end.

Local Open Scope float_scope.

(** [math.tau] (= 6.283185307179586, twice [math.pi]). *)
Definition tau : float := 0x1.921fb54442d18p+2.
Definition np_pi : float := Screw.np_pi.

(** [math.sqrt] raises on a negative argument and returns NaN on NaN. *)
Definition math_sqrt (x : float) : py float :=
  if x <? 0 then Raise ValueError else Ret (sqrt x).

(** Division of two Python floats raises on a zero divisor. *)
Definition float_div (a b : float) : py float :=
  if b =? 0 then Raise ZeroDivisionError else Ret (a / b).

(** [math.sin] and [math.cos] are the C library's.  The script calls them,
    through [quaternion_from_euler], only on the halves of its constant
    Euler angles: 0, pi/2, pi/8, -pi/8 and -pi/4.  The tables give the
    binary64 results at these arguments. *)
Definition math_sin (x : float) : float :=
  if Leibniz.eqb x 0 then 0
  else if Leibniz.eqb x 0x1.921fb54442d18p+0 then 1
  else if Leibniz.eqb x 0x1.921fb54442d18p-2 then 0x1.87de2a6aea963p-2
  else if Leibniz.eqb x (-0x1.921fb54442d18p-2) then -0x1.87de2a6aea963p-2
  else if Leibniz.eqb x (-0x1.921fb54442d18p-1) then -0x1.6a09e667f3bccp-1
  else nan.

Definition math_cos (x : float) : float :=
  if Leibniz.eqb x 0 then 1
  else if Leibniz.eqb x 0x1.921fb54442d18p+0 then 0x1.1a62633145c07p-54
  else if Leibniz.eqb x 0x1.921fb54442d18p-2 then 0x1.d906bcf328d46p-1
  else if Leibniz.eqb x (-0x1.921fb54442d18p-2) then 0x1.d906bcf328d46p-1
  else if Leibniz.eqb x (-0x1.921fb54442d18p-1) then 0x1.6a09e667f3bcdp-1
  else nan.

(** numpy arrays of shape (3,) and quaternions [[x, y, z, w]]. *)
Record vec3 := V3 { c0 : float; c1 : float; c2 : float }.
Record quat := Quat { qx : float; qy : float; qz : float; qw : float }.

(** A 4x4 array, given by its rows; [mget M i j] is [M[i, j]]. *)
Definition matrix : Type := nat -> nat -> float.

Definition mget (M : matrix) (i j : nat) : float := M i j.

Definition rows (r0 r1 r2 r3 : nat -> float) : matrix :=
  fun i => at4 r0 r1 r2 r3 i.

(** [np.cross(a, b)] *)
Definition cross (a b : vec3) : vec3 :=
  V3 (c1 a * c2 b - c2 a * c1 b)
     (c2 a * c0 b - c0 a * c2 b)
     (c0 a * c1 b - c1 a * c0 b).

Definition dot (a b : vec3) : float :=
  c0 a * c0 b + c1 a * c1 b + c2 a * c2 b.

(** [np.linalg.norm(v)]: the square root of [v.dot(v)] (never raises). *)
Definition norm (v : vec3) : float := sqrt (dot v v).

(** [v /= n]: numpy divides componentwise; a zero divisor gives NaN or an
    infinity (and a warning), not an exception. *)
Definition vdiv (v : vec3) (n : float) : vec3 :=
  V3 (c0 v / n) (c1 v / n) (c2 v / n).

(** [np.isclose(a, b)] with the default [rtol=1e-05], [atol=1e-08]:
    finite operands are compared within the tolerance, others for equality. *)
Definition isclose (a b : float) : bool :=
  if is_finite a && is_finite b
  then abs (a - b) <=? 1e-08 + 1e-05 * abs b
  else a =? b.

(** *** [tf.transformations]

    The four functions of the ROS [tf] package that [main] calls, after
    their Python source; quaternions are stored as [[x, y, z, w]]. *)

(** [_EPS = numpy.finfo(float).eps * 4.0] *)
Definition _EPS : float := 0x1p-52 * 4.

Definition identity : matrix :=
  rows (at4 1 0 0 0) (at4 0 1 0 0) (at4 0 0 1 0) (at4 0 0 0 1).

Definition quaternion_matrix (quaternion : quat) : py matrix :=
  let q := quaternion in
  let nq := qx q * qx q + qy q * qy q + qz q * qz q + qw q * qw q in
  if nq <? _EPS then Ret identity
  else
    s <- math_sqrt (2 / nq) ;;
    let q := Quat (qx q * s) (qy q * s) (qz q * s) (qw q * s) in
    (* q = numpy.outer(q, q) *)
    let q := rows (fun j => qx q * at4 (qx q) (qy q) (qz q) (qw q) j)
                  (fun j => qy q * at4 (qx q) (qy q) (qz q) (qw q) j)
                  (fun j => qz q * at4 (qx q) (qy q) (qz q) (qw q) j)
                  (fun j => qw q * at4 (qx q) (qy q) (qz q) (qw q) j) in
    Ret (rows
      (at4 (1 - mget q 1 1 - mget q 2 2) (mget q 0 1 - mget q 2 3)
           (mget q 0 2 + mget q 1 3) 0)
      (at4 (mget q 0 1 + mget q 2 3) (1 - mget q 0 0 - mget q 2 2)
           (mget q 1 2 - mget q 0 3) 0)
      (at4 (mget q 0 2 - mget q 1 3) (mget q 1 2 + mget q 0 3)
           (1 - mget q 0 0 - mget q 1 1) 0)
      (at4 0 0 0 1)).

(** [quaternion_from_euler(ai, aj, ak)] with the default axes ['sxyz']:
    first axis 0, no parity, no repetition, static frame. *)
Definition quaternion_from_euler (ai aj ak : float) : quat :=
  let ai := ai / 2 in
  let aj := aj / 2 in
  let ak := ak / 2 in
  let ci := math_cos ai in
  let si := math_sin ai in
  let cj := math_cos aj in
  let sj := math_sin aj in
  let ck := math_cos ak in
  let sk := math_sin ak in
  let cc := ci * ck in
  let cs := ci * sk in
  let sc := si * ck in
  let ss := si * sk in
  Quat (cj * sc - sj * cs) (cj * ss + sj * cc) (cj * cs - sj * sc)
       (cj * cc + sj * ss).

(** [q[i] = v] *)
Definition qset (q : quat) (i : nat) (v : float) : quat :=
  at4 (Quat v (qy q) (qz q) (qw q)) (Quat (qx q) v (qz q) (qw q))
      (Quat (qx q) (qy q) v (qw q)) (Quat (qx q) (qy q) (qz q) v) i.

Definition quaternion_from_matrix (M : matrix) : py quat :=
  let t := mget M 0 0 + mget M 1 1 + mget M 2 2 + mget M 3 3 in
  let '(q, t) :=
    if mget M 3 3 <? t then                        (* t > M[3, 3] *)
      (Quat (mget M 2 1 - mget M 1 2) (mget M 0 2 - mget M 2 0)
            (mget M 1 0 - mget M 0 1) t, t)
    else
      let '(i, j, k) :=
        if mget M 0 0 <? mget M 1 1           (* M[1, 1] > M[0, 0] *)
        then (1%nat, 2%nat, 0%nat) else (0%nat, 1%nat, 2%nat) in
      let '(i, j, k) :=
        if mget M i i <? mget M 2 2           (* M[2, 2] > M[i, i] *)
        then (2%nat, 0%nat, 1%nat) else (i, j, k) in
      let t := mget M i i - (mget M j j + mget M k k) + mget M 3 3 in
      (qset (qset (qset (qset (Quat 0 0 0 0) i t)
                        j (mget M i j + mget M j i))
                  k (mget M k i + mget M i k))
            3 (mget M k j - mget M j k), t) in
  r <- math_sqrt (t * mget M 3 3) ;;
  f <- float_div 0.5 r ;;
  (* q *= 0.5 / math.sqrt(t * M[3, 3]) *)
  Ret (Quat (qx q * f) (qy q * f) (qz q * f) (qw q * f)).

Definition quaternion_multiply (quaternion1 quaternion0 : quat) : quat :=
  let '(Quat x0 y0 z0 w0) := quaternion0 in
  let '(Quat x1 y1 z1 w1) := quaternion1 in
  Quat (x1 * w0 + y1 * z0 - z1 * y0 + w1 * x0)
       (- x1 * z0 + y1 * w0 + z1 * x0 + w1 * y0)
       (x1 * y0 - y1 * x0 + z1 * w0 + w1 * z0)
       (- x1 * x0 - y1 * y0 - z1 * z0 + w1 * w0).

(** *** The frame and the grasp orientation *)

(** The variables that the [if] of lines 315-331 leaves behind. *)
Record frame := Frame {
  y_axis : vec3; z_axis : vec3; x_axis : vec3;
  q2 : quat;
  pos_offset_fixture_x : float;
  pos_offset_fixture_z : float;
  q_fixture : quat }.

(** Line 313: [z_axis = tft.quaternion_matrix(q)[:-1, 2]]. *)
Definition sensed_axis (q : quat) : py vec3 :=
  R <- quaternion_matrix q ;;
  Ret (V3 (mget R 0 2) (mget R 1 2) (mget R 2 2)).

(** Lines 315-331.  In the first branch the axes are integer arrays and
    become floats when [mat] is built. *)
Definition frame_builder (q : quat) : py frame :=
  z_axis <- sensed_axis q ;;
  if isclose (c2 z_axis) 1 then
    Ret {| y_axis := V3 0 0 1;
           z_axis := V3 1 0 0;
           x_axis := V3 0 1 0;
           q2 := quaternion_from_euler np_pi 0 (- tau / 8);
           pos_offset_fixture_x := - 0;
           pos_offset_fixture_z := 0.07;
           q_fixture := quaternion_from_euler np_pi 0 (tau / 8) |}
  else
    let x_axis := cross z_axis (V3 0 0 1) in
    let x_axis := vdiv x_axis (norm x_axis) in
    let y_axis := cross z_axis x_axis in
    let y_axis := vdiv y_axis (norm y_axis) in
    Ret {| y_axis := y_axis;
           z_axis := z_axis;
           x_axis := x_axis;
           q2 := quaternion_from_euler 0 0 (- np_pi / 4);
           pos_offset_fixture_x := - 0.1027;
           pos_offset_fixture_z := 0;
           q_fixture :=
             quaternion_from_euler (- tau / 4) (- tau / 8) (- tau / 4) |}.

(** Lines 333-334: the rows [z_axis, x_axis, y_axis, (0, 0, 0, 1)], each
    axis padded with 0.0, transposed: the axes are the columns of [mat]. *)
Definition basis_matrix (f : frame) : matrix :=
  let col (v : vec3) := at4 (c0 v) (c1 v) (c2 v) 0 in
  fun i j => at4 (col (z_axis f)) (col (x_axis f)) (col (y_axis f))
                 (at4 0 0 0 1) j i.

(** Lines 335-336: [q = quaternion_from_matrix(mat)] and
    [q = quaternion_multiply(q2, q)]. *)
Definition grasp_orientation (q : quat) : py quat :=
  f <- frame_builder q ;;
  qm <- quaternion_from_matrix (basis_matrix f) ;;
  Ret (quaternion_multiply (q2 f) qm).

(** The frame invariant as a test would check it: every pairwise dot
    product below 1e-6 and every norm within 1e-6 of 1. *)
Definition orthonormal_within (f : frame) : bool :=
  (dot (z_axis f) (x_axis f) <? 1e-6) &&
  (dot (z_axis f) (y_axis f) <? 1e-6) &&
  (dot (x_axis f) (y_axis f) <? 1e-6) &&
  (abs (1 - norm (z_axis f)) <? 1e-6) &&
  (abs (1 - norm (x_axis f)) <? 1e-6) &&
  (abs (1 - norm (y_axis f)) <? 1e-6).

Definition squared_norm (q : quat) : float :=
  qx q * qx q + qy q * qy q + qz q * qz q + qw q * qw q.

(** The same rotation is written by a quaternion and by its opposite. *)
Definition qopp (q : quat) : quat :=
  Quat (- qx q) (- qy q) (- qz q) (- qw q).

(** Two quaternions whose components differ by at most [tol]. *)
Definition quat_within (tol : float) (p q : quat) : bool :=
  (abs (qx p - qx q) <=? tol) && (abs (qy p - qy q) <=? tol) &&
  (abs (qz p - qz q) <=? tol) && (abs (qw p - qw q) <=? tol).

(** A computation that returns, without raising, a quaternion within [tol]
    of [q]. *)
Definition returns_within (tol : float) (m : py quat) (q : quat) : bool :=
  match m with
  | Ret p => quat_within tol p q
  | Raise _ => false
  end.

End Pose.

(** ** Sensor feeds and joint readings used as examples *)

Module Inputs.

Import Screw.
Local Open Scope float_scope.

(** An arm that reports every joint at 0 whenever it is asked. *)
Definition still_arm : nat -> joint_values :=
  fun _ => Joints 0 0 0 0 0 0 0.

(** An arm that is where the last [go] sent it: the wrist is at the start
    angle before each odd pass and at the forward target before each even
    one. *)
Definition obedient_arm : nat -> joint_values :=
  fun k => Joints 0 0 0 0 0 0
             (if Nat.odd k then -7 * np_pi / 8 else 7 * np_pi / 8).

(** An arm whose wrist stays at the forward target whatever it is sent. *)
Definition stuck_arm : nat -> joint_values :=
  fun _ => Joints 0 0 0 0 0 0 (7 * np_pi / 8).

(** An arm in the ready pose of the Panda whose wrist is where the last
    [go] sent it. *)
Definition ready_arm : nat -> joint_values :=
  fun k => Joints 0 (-0.785) 0 (-2.356) 0 1.571
             (if Nat.odd k then -7 * np_pi / 8 else 7 * np_pi / 8).

(** The synthetic progress sequence: z0 = 0.100, then 0.100, 0.098, 0.096,
    0.093; the feed has nothing after that. *)
Definition synthetic_feed : nat -> option float :=
  fun k => nth_error [0.100; 0.100; 0.098; 0.096; 0.093] k.

(** A feed that never changes. *)
Definition constant_feed (z : float) : nat -> option float :=
  fun _ => Some z.

(** A feed whose sample number [n] is not a number. *)
Definition feed_with_nan_at (n : nat) (z : float) : nat -> option float :=
  fun k => if Nat.eqb k n then Some nan else Some z.

(** A feed that delivers [n + 1] equal samples and then stops. *)
Definition feed_stopping_after (n : nat) (z : float) : nat -> option float :=
  fun k => if Nat.leb k n then Some z else None.

(** Orientations of the nut: upright, turned over (half a turn about x),
    turned over up to a tilt of 2e-8, and lying on its side (a quarter turn
    about y). *)
Definition upright : Pose.quat := Pose.Quat 0 0 0 1.
Definition turned_over : Pose.quat := Pose.Quat 1 0 0 0.
Definition nearly_turned_over : Pose.quat := Pose.Quat 1 0 1e-8 0.
Definition on_its_side : Pose.quat :=
  Pose.Quat 0 0.7071067811865476 0 0.7071067811865476.

(** The nut tilted about x so that its axis is (0, 0.6, 0.8), up to
    rounding. *)
Definition tilted : Pose.quat :=
  Pose.Quat (-0.31622776601683794) 0 0 0.9486832980505138.

End Inputs.

(** ** [all_close]: lines 32-59 *)

Module AllClose.

Local Open Scope float_scope.

Inductive error : Type := IndexError | TypeError | AttributeError | DomainError.

Inductive result (A : Type) : Type :=
| Returns (a : A)
| Raises (e : error).
Arguments Returns {A} a.
Arguments Raises {A} e.

(** A [geometry_msgs] pose: position and orientation. *)
Record pose := Pose {
  px : float; py : float; pz : float;
  ox : float; oy : float; oz : float; ow : float }.

(** What [all_close] is given: a list of floats, a stamped pose, a pose,
    or a sequence of floats that is not of type [list] (a tuple, an
    array). *)
Inductive value : Type :=
| VList (l : list float)
| VPoseStamped (p : pose)
| VPose (p : pose)
| VSeq (l : list float).

(** [abs(actual[index] - goal[index]) > tolerance] is False. *)
Definition within (tolerance : float) (ga : float * float) : bool :=
  negb (tolerance <? abs (snd ga - fst ga)).

(** Lines 43-45, from [index] on: [actual[index]] raises when the index is
    out of range; leaving the loop leads to the [return True] of line 59. *)
Fixpoint compare_from (index : nat) (goal actual : list float)
    (tolerance : float) : result bool :=
  match goal with
  | [] => Returns true
  | g :: goal' =>
      match nth_error actual index with
      | None => Raises IndexError
      | Some a =>
          if tolerance <? abs (a - g) then Returns false
          else compare_from (S index) goal' actual tolerance
      end
  end.

Section Libm.

(** [math.dist] on two points and [math.cos] on a finite or NaN argument;
    they are the C library's. *)
Variable dist : float * float * float -> float * float * float -> float.
Variable cos : float -> float.

(** [math.cos] raises ValueError on an infinite argument. *)
Definition math_cos (x : float) : result float :=
  if is_infinity x then Raises DomainError else Returns (cos x).

(** Lines 51-57.  [and] evaluates its second operand only when the first
    is true. *)
Definition all_close_pose (goal actual : pose) (tolerance : float)
    : result bool :=
  let d := dist (px goal, py goal, pz goal) (px actual, py actual, pz actual) in
  let cos_phi_half :=
    abs (ox actual * ox goal + oy actual * oy goal + oz actual * oz goal
         + ow actual * ow goal) in
  if d <=? tolerance then
    match math_cos (tolerance / 2) with
    | Raises e => Raises e
    | Returns c => Returns (c <=? cos_phi_half)
    end
  else Returns false.

Definition all_close (goal actual : value) (tolerance : float)
    : result bool :=
  match goal with
  | VList g =>
      match actual with
      | VList a | VSeq a => compare_from 0 g a tolerance
      | VPoseStamped _ | VPose _ =>
          (* a pose cannot be indexed; an empty goal never indexes *)
          match g with
          | [] => Returns true
          | _ :: _ => Raises TypeError
          end
      end
  | VPoseStamped g =>
      match actual with
      | VPoseStamped a => all_close_pose g a tolerance
      | _ => Raises AttributeError        (* actual.pose *)
      end
  | VPose g =>
      match actual with
      | VPose a => all_close_pose g a tolerance
      | _ => Raises AttributeError        (* pose_to_list(actual) *)
      end
  | VSeq _ => Returns true
  end.

(** The pose with the opposite quaternion: the same orientation. *)
Definition flip (p : pose) : pose :=
  {| px := px p; py := py p; pz := pz p;
     ox := - ox p; oy := - oy p; oz := - oz p; ow := - ow p |}.

End Libm.

(** [open_gripper], lines 163-177, with what it returns.  [before] and
    [after] are the two answers of
    [move_group_hand.get_current_joint_values()]; the result is the goal
    sent to [go] and the verdict of [all_close]. *)
Definition list_set (l : list float) (i : nat) (v : float)
    : result (list float) :=
  match nth_error l i with
  | None => Raises IndexError
  | Some _ => Returns (firstn i l ++ v :: skipn (S i) l)
  end.

Definition open_gripper (before after : list float)
    : result (list float * bool) :=
  match list_set before 0 0.04 with
  | Raises e => Raises e
  | Returns joint_goal =>
      match list_set joint_goal 1 0.04 with
      | Raises e => Raises e
      | Returns joint_goal =>
          match compare_from 0 joint_goal after 0.01 with
          | Raises e => Raises e
          | Returns b => Returns (joint_goal, b)
          end
      end
  end.

End AllClose.

(** ** [wait_for_state_update]: lines 257-280 *)

Module SceneWait.

Local Open Scope float_scope.

(** The collaborators' answers, by the number of the call: the clock, the
    shutdown flag, the keys of [get_attached_objects([box_name])], the
    known object names, and whether [rospy.sleep] is interrupted. *)
Record env := Env {
  get_time : nat -> float;
  is_shutdown : nat -> bool;
  get_attached_objects : nat -> list String.string;
  get_known_object_names : nat -> list String.string;
  sleep_interrupted : nat -> bool }.

Inductive outcome : Type :=
| Returned (b : bool) (polls : nat)   (* the value returned, after [polls] sleeps *)
| Interrupted (polls : nat)           (* [rospy.sleep] raised *)
| Waiting (polls : nat).              (* still polling when the fuel ran out *)

(** Line 262: the test of the [while], in round [n]. *)
Definition guard (e : env) (timeout : float) (n : nat) : bool :=
  (get_time e (S n) - get_time e 0 <? timeout) && negb (is_shutdown e n).

(** Lines 264-272: the poll of round [n] sees the expected state. *)
Definition expected (e : env) (box_name : String.string)
    (box_is_known box_is_attached : bool) (n : nat) : bool :=
  let is_attached := Nat.ltb 0 (length (get_attached_objects e n)) in
  let is_known :=
    existsb (String.eqb box_name) (get_known_object_names e n) in
  Bool.eqb box_is_attached is_attached && Bool.eqb box_is_known is_known.

Fixpoint wait_loop (e : env) (box_name : String.string)
    (box_is_known box_is_attached : bool) (timeout : float)
    (fuel n : nat) : outcome :=
  if guard e timeout n then
    match fuel with
    | O => Waiting n
    | S fuel' =>
        if expected e box_name box_is_known box_is_attached n
        then Returned true n
        else if sleep_interrupted e n then Interrupted n
        else wait_loop e box_name box_is_known box_is_attached timeout
               fuel' (S n)
    end
  else Returned false n.

Definition wait_for_state_update (e : env) (box_name : String.string)
    (box_is_known box_is_attached : bool) (timeout : float) (fuel : nat)
    : outcome :=
  wait_loop e box_name box_is_known box_is_attached timeout fuel 0.

(** Round [k] goes through the whole body: the test of the [while] holds,
    the poll does not see the expected state, the sleep is not
    interrupted. *)
Definition fruitless (e : env) (box_name : String.string)
    (box_is_known box_is_attached : bool) (timeout : float) (k : nat)
    : Prop :=
  guard e timeout k = true /\
  expected e box_name box_is_known box_is_attached k = false /\
  sleep_interrupted e k = false.

End SceneWait.

Module SceneExamples.

Import SceneWait.
Import Stdlib.Strings.String.
Local Open Scope float_scope.

Definition table : string := "table"%string.

(** A scene in which the table becomes known between the first poll and
    the second, read on a clock that starts at 100 s and advances. *)
Definition table_appears : env :=
  {| get_time := fun k => match k with
                          | O | S O => 100
                          | S (S O) => 100.1
                          | _ => 200
                          end;
     is_shutdown := fun _ => false;
     get_attached_objects := fun _ => [];
     get_known_object_names :=
       fun k => match k with
                | O => []
                | S _ => [table]
                end;
     sleep_interrupted := fun _ => false |}.

End SceneExamples.

(** ** The fixture waypoints of [main]: lines 365-375 *)

Module Waypoints.

Import Pose.
Local Open Scope float_scope.

Record point := Point { x : float; y : float; z : float }.
Record waypoint := Waypoint { position : point; orientation : quat }.

(** [pose_goal] is given the fixture's x and y and the height 0.57, the
    branch offsets are added, a copy is appended, the height is lowered by
    0.07 and a second copy is appended. *)
Definition fixture_waypoints (f : frame) (fixture_pos : point)
    : list waypoint :=
  let p := Point (x fixture_pos) (y fixture_pos) 0.57 in
  let p := Point (x p + pos_offset_fixture_x f) (y p) (z p) in
  let p := Point (x p) (y p) (z p + pos_offset_fixture_z f) in
  let first := Waypoint p (q_fixture f) in
  let p := Point (x p) (y p) (z p - 0.07) in
  [first; Waypoint p (q_fixture f)].

End Waypoints.

(** ** Predicates on runs of the screw controller *)

Module ScrewRuns.

Import Screw.
Local Open Scope float_scope.

(** The goals sent to the arm ([move_group.go]), in the order of the
    requests. *)
Fixpoint arm_goals (l : list action) : list joint_values :=
  match l with
  | [] => []
  | ArmGo joint_goal :: l' => joint_goal :: arm_goals l'
  | _ :: l' => arm_goals l'
  end.

(** What goes to the arm after reading number [i]: the reading with its
    last entry overwritten, by -7*pi/8 before the loop (line 195) and by
    the angle of the branch taken in pass [i] (lines 212 and 219). *)
Definition sent_goal (e : env) (i : nat) : joint_values :=
  let read := joint_reads e i in
  Joints (joint0 read) (joint1 read) (joint2 read) (joint3 read)
         (joint4 read) (joint5 read)
         (match i with
          | O => -7 * np_pi / 8
          | S _ => if np_pi / 2 <=? joint6 read
                   then -7 * np_pi / 8 else 7 * np_pi / 8
          end).

(** The wrist angle that a pass commands when it reads [g]. *)
Definition commanded (g : joint_values) : float :=
  if np_pi / 2 <=? joint6 g then -7 * np_pi / 8 else 7 * np_pi / 8.

(** An arm whose wrist is, at every reading, where the last [go] sent
    it. *)
Definition obedient (e : env) : Prop :=
  joint6 (joint_reads e 1) = -7 * np_pi / 8 /\
  forall k, joint6 (joint_reads e (S (S k))) =
            commanded (joint_reads e (S k)).

(** The log of a run, however it ended. *)
Definition log_of (o : outcome) : list action :=
  match o with
  | NoEntrySample l => l
  | Done s | Blocked s | Running s => log s
  end.

End ScrewRuns.

(** ** Relations between binary64 values *)

Module FloatRelations.

(** Two values that are opposite, or both zero (of whatever signs). *)
Definition mirrored (a b : spec_float) : Prop :=
  b = SFopp a \/
  ((exists s, a = S754_zero s) /\ (exists s, b = S754_zero s)).

(** A zero of either sign, or NaN. *)
Definition zero_or_nan (a : spec_float) : Prop :=
  match a with
  | S754_zero _ | S754_nan => True
  | _ => False
  end.

End FloatRelations.

(** Closed goals are settled by evaluation on the virtual machine. *)
Ltac conjuncts := repeat match goal with |- _ /\ _ => split end.
Ltac evaluate := vm_compute; reflexivity.

(** ** Facts about binary64 comparison and subtraction *)

Module FloatFacts.

Local Open Scope float_scope.

(** Zero, NaN, or a number or an infinity with the sign bit clear. *)
Definition not_negative (f : spec_float) : Prop :=
  match f with
  | S754_infinity s | S754_finite s _ _ => s = false
  | _ => True
  end.


Lemma SFcompare_antisym (x y : spec_float) :
  SFcompare y x =
  match SFcompare x y with
  | Some c => Some (CompOpp c)
  | None => None
  end.
Proof.
  destruct x as [sx|sx| |sx mx ex], y as [sy|sy| |sy my ey];
    cbn [SFcompare]; try reflexivity;
    try (destruct sx; reflexivity); try (destruct sy; reflexivity);
    try (destruct sx, sy; reflexivity).
  destruct sx, sy; try reflexivity;
    rewrite (Z.compare_antisym ex ey);
    destruct (ex ?= ey)%Z; cbn [CompOpp]; try reflexivity;
    rewrite !Pos.compare_cont_spec; cbn [Pos.switch_Eq];
    rewrite (Pos.compare_antisym mx my);
    destruct (mx ?= my)%positive; reflexivity.
Qed.

Lemma SFcompare_refl (x : spec_float) :
  x <> S754_nan -> SFcompare x x = Some Eq.
Proof.
  destruct x as [s|s| |s m e]; cbn [SFcompare]; intros H; try congruence.
  - destruct s; reflexivity.
  - destruct s; rewrite Z.compare_refl, Pos.compare_cont_refl; reflexivity.
Qed.

Lemma is_nan_SF (x : float) :
  is_nan x = match Prim2SF x with S754_nan => true | _ => false end.
Proof.
  unfold is_nan. rewrite FloatAxioms.eqb_spec. unfold SFeqb.
  destruct (Prim2SF x) as [s|s| |s m e] eqn:E; try reflexivity;
    rewrite SFcompare_refl by discriminate; reflexivity.
Qed.

Lemma is_finite_SF (x : float) :
  is_finite x =
  match Prim2SF x with
  | S754_zero _ | S754_finite _ _ _ => true
  | _ => false
  end.
Proof.
  unfold is_finite, is_infinity.
  rewrite is_nan_SF, FloatAxioms.eqb_spec, abs_spec.
  change (Prim2SF infinity) with (S754_infinity false).
  destruct (Prim2SF x) as [s|s| |s m e]; reflexivity.
Qed.

(** On numbers, [x < y] fails exactly when [y <= x]. *)
Lemma ltb_leb_total (x y : float) :
  is_nan x = false -> is_nan y = false -> (x <? y) = negb (y <=? x).
Proof.
  rewrite !is_nan_SF, ltb_spec, leb_spec. unfold SFltb, SFleb.
  rewrite (SFcompare_antisym (Prim2SF x) (Prim2SF y)).
  destruct (Prim2SF x) as [sx|sx| |sx mx ex],
           (Prim2SF y) as [sy|sy| |sy my ey];
    try discriminate; intros _ _;
    match goal with
    | |- context [SFcompare ?a ?b] =>
        destruct (SFcompare a b) as [[ | | ]|] eqn:E
    end; try reflexivity;
    cbn [SFcompare] in E; try discriminate; destruct sx; discriminate.
Qed.

(** Every comparison with NaN is false. *)
Lemma ltb_nan_l (x y : float) : is_nan x = true -> (x <? y) = false.
Proof.
  rewrite is_nan_SF, ltb_spec. unfold SFltb.
  destruct (Prim2SF x); try discriminate. reflexivity.
Qed.

Lemma leb_nan_r (x y : float) : is_nan y = true -> (x <=? y) = false.
Proof.
  rewrite is_nan_SF, leb_spec. unfold SFleb.
  destruct (Prim2SF y); try discriminate.
  intros _. destruct (Prim2SF x); reflexivity.
Qed.

(** A finite number minus itself is +0. *)
Lemma sub_diag_finite (x : float) :
  is_finite x = true -> Prim2SF (x - x) = S754_zero false.
Proof.
  unfold is_finite, is_infinity.
  rewrite is_nan_SF, FloatAxioms.eqb_spec, abs_spec, sub_spec.
  unfold SFeqb, SF64sub.
  destruct (Prim2SF x) as [s|s| |s m e]; try discriminate; intros _.
  - destruct s; reflexivity.
  - cbn [SFsub]. rewrite Z.sub_diag. reflexivity.
Qed.

(** The test of line 207 at loop entry, where [z2 = z0]. *)
Lemma entry_test_finite (z : float) :
  is_finite z = true -> (z - z <? 0.006) = true.
Proof.
  intros H. rewrite ltb_spec, (sub_diag_finite z H). reflexivity.
Qed.

(** The loop test fails exactly when the progress is at least the
    threshold or is not a number. *)
Lemma test_fails_iff (d c : float) :
  is_nan c = false ->
  (d <? c) = false <-> ((c <=? d) = true \/ is_nan d = true).
Proof.
  intros Hc. destruct (is_nan d) eqn:Hd.
  - rewrite (ltb_nan_l d c Hd). split; auto.
  - rewrite (ltb_leb_total d c Hd Hc). split.
    + intros H. left. now apply negb_false_iff.
    + intros [H | H]; [now rewrite H | discriminate].
Qed.

(** Squares, and sums of squares, never carry the sign bit. *)
Lemma round_not_negative (m e : Z) (l : location) :
  not_negative (binary_round_aux prec emax false m e l).
Proof.
  unfold binary_round_aux.
  destruct (shr_fexp prec emax m e l) as [mrs' e'].
  destruct (shr_fexp _ _ _ _ _) as [mrs'' e''].
  destruct (shr_m mrs''); simpl; auto.
  destruct (Z.leb _ _); simpl; auto.
Qed.

Lemma square_not_negative (x : float) : not_negative (Prim2SF (x * x)).
Proof.
  rewrite mul_spec. unfold SF64mul.
  destruct (Prim2SF x) as [s|s| |s m e]; simpl; auto.
  - now destruct s.
  - rewrite xorb_nilpotent. apply round_not_negative.
Qed.

Lemma sum_not_negative (x y : float) :
  not_negative (Prim2SF x) -> not_negative (Prim2SF y) ->
  not_negative (Prim2SF (x + y)).
Proof.
  rewrite add_spec. unfold SF64add.
  destruct (Prim2SF x) as [sx|sx| |sx mx ex],
           (Prim2SF y) as [sy|sy| |sy my ey]; simpl; auto;
    try (intros -> ->; simpl; auto).
  - destruct sx, sy; simpl; auto.
  - unfold binary_normalize, binary_round.
    destruct (shl_align _ _ _) as [mz ez]. apply round_not_negative.
Qed.

Lemma not_negative_ltb_zero (r : spec_float) :
  not_negative r -> SFltb r (S754_zero false) = false.
Proof.
  destruct r as [s|s| |s m e]; simpl; try reflexivity; now intros ->.
Qed.

End FloatFacts.

(** ** The screw-progress controller: properties *)

Module ScrewFacts.

Import Screw Inputs FloatFacts.
Local Open Scope float_scope.

Lemma screw_loop_step (e : env) (fuel : nat) (s : state) :
  screw_loop e (S fuel) s =
  if loop_test s then
    match screw_pos e (S (iters s)) with
    | None => Blocked (issue s (body_actions e s))
    | Some z => screw_loop e fuel (sampled (issue s (body_actions e s)) z)
    end
  else Done s.
Proof. reflexivity. Qed.

Lemma screw_loop_exit (e : env) (fuel : nat) (s : state) :
  loop_test s = false -> screw_loop e fuel s = Done s.
Proof. intros H. destruct fuel; simpl; rewrite H; reflexivity. Qed.

Lemma entry_is_after (e : env) (z : float) : entry e z = after e z 0 z.
Proof. unfold entry, after. simpl passes. now rewrite app_nil_r. Qed.

(** One pass, from the state reached after [n] passes. *)
Lemma pass_from_after (e : env) (z zn zn' : float) (n fuel : nat) :
  (z - zn <? 0.006) = true ->
  screw_pos e (S n) = Some zn' ->
  screw_loop e (S fuel) (after e z n zn) =
  screw_loop e fuel (after e z (S n) zn').
Proof.
  intros Htest Hnext. rewrite screw_loop_step.
  unfold loop_test. cbn [z0 z2 after iters]. rewrite Htest, Hnext.
  reflexivity.
Qed.

Lemma blocked_from_after (e : env) (z zn : float) (n fuel : nat) :
  (z - zn <? 0.006) = true ->
  screw_pos e (S n) = None ->
  screw_loop e (S fuel) (after e z n zn) =
  Blocked (issue (after e z n zn) (body_actions e (after e z n zn))).
Proof.
  intros Htest Hnext. rewrite screw_loop_step.
  unfold loop_test. cbn [z0 z2 after iters]. now rewrite Htest, Hnext.
Qed.

(** As long as the samples keep the test of line 207 true, [n] units of
    fuel are spent on [n] passes. *)
Lemma run_to (e : env) (z : float) (n : nat) :
  screw_pos e 0 = Some z ->
  (forall k, (k < n)%nat ->
     exists zk, screw_pos e k = Some zk /\ (z - zk <? 0.006) = true) ->
  forall zn, screw_pos e n = Some zn ->
  forall fuel,
    screw_loop e (n + fuel) (entry e z) = screw_loop e fuel (after e z n zn).
Proof.
  intros H0. induction n as [|n IH]; intros Hgo zn Hn fuel.
  - rewrite H0 in Hn. injection Hn as <-. now rewrite entry_is_after.
  - destruct (Hgo n (Nat.lt_succ_diag_r n)) as [zk [Hk Htest]].
    replace (S n + fuel)%nat with (n + S fuel)%nat by lia.
    rewrite (IH (fun k Hlt => Hgo k (Nat.lt_lt_succ_r _ _ Hlt)) zk Hk).
    now apply pass_from_after.
Qed.

Lemma screw_at_entry (e : env) (z : float) (fuel : nat) :
  screw_pos e 0 = Some z -> screw e fuel = screw_loop e fuel (entry e z).
Proof. intros H. unfold screw. now rewrite H. Qed.

(** The entry height and [z1] are never assigned again, and the pass
    counter never decreases. *)
Lemma loop_keeps_entry_height (e : env) (fuel : nat) :
  forall s s', final_state (screw_loop e fuel s) = Some s' ->
               z0 s' = z0 s /\ z1 s' = z1 s /\ (iters s <= iters s')%nat.
Proof.
  induction fuel as [|fuel IH]; intros s s'.
  - simpl. destruct (loop_test s); simpl; intros [= <-]; auto.
  - rewrite screw_loop_step. destruct (loop_test s).
    + destruct (screw_pos e (S (iters s))) as [z|].
      * intros H. apply IH in H. cbn [sampled issue z0 z1 iters] in H.
        destruct H as (H0 & H1 & Hi). repeat split; auto. lia.
      * simpl. intros [= <-]. cbn. auto.
    + simpl. intros [= <-]. auto.
Qed.

Lemma keeps_going_of_no_progress (z zk : float) :
  is_nan (z - zk) = false -> (0.006 <=? z - zk) = false ->
  (z - zk <? 0.006) = true.
Proof.
  intros Hnan Hle. rewrite (ltb_leb_total (z - zk) 0.006 Hnan eq_refl), Hle. reflexivity.
Qed.

Section Runs.

Variables (e : env) (z zn : float) (n : nat).
Hypothesis at_entry : screw_pos e 0 = Some z.
Hypothesis keeps_going :
  forall k, (k < n)%nat ->
    exists zk, screw_pos e k = Some zk /\ (z - zk <? 0.006) = true.
Hypothesis latest : screw_pos e n = Some zn.

Lemma still_running :
  (z - zn <? 0.006) = true -> screw e n = Running (after e z n zn).
Proof.
  intros Htest. rewrite (screw_at_entry e z n at_entry).
  replace n with (n + 0)%nat at 1 by lia.
  rewrite (run_to e z n at_entry keeps_going zn latest 0). simpl.
  unfold loop_test. cbn [z0 z2 after]. now rewrite Htest.
Qed.

Lemma returns_after :
  (z - zn <? 0.006) = false ->
  forall fuel, (n <= fuel)%nat -> screw e fuel = Done (after e z n zn).
Proof.
  intros Hstop fuel Hfuel.
  rewrite (screw_at_entry e z fuel at_entry).
  replace fuel with (n + (fuel - n))%nat by lia.
  rewrite (run_to e z n at_entry keeps_going zn latest).
  apply screw_loop_exit. exact Hstop.
Qed.

Lemma stalls_after :
  (z - zn <? 0.006) = true ->
  screw_pos e (S n) = None ->
  forall fuel, (n < fuel)%nat ->
    screw e fuel =
    Blocked (issue (after e z n zn) (body_actions e (after e z n zn))).
Proof.
  intros Htest Hnone fuel Hfuel.
  rewrite (screw_at_entry e z fuel at_entry).
  replace fuel with (n + S (fuel - S n))%nat by lia.
  rewrite (run_to e z n at_entry keeps_going zn latest).
  now apply blocked_from_after.
Qed.

End Runs.

(** C4 (as amended).  Every pass through the loop body reads the joint
    values, then performs the Reset actions when the wrist angle read is at
    or above pi/2 (open the gripper, then send the arm to the reading with
    its wrist entry set to -7*pi/8 and the other six as read) and the
    Engage actions otherwise (grasp goal, one second of sleep, then send
    the arm to the reading with its wrist entry set to 7*pi/8), then waits
    for the next height sample.  After [n] passes whose samples kept
    [z0 - z < 0.006] true the loop is still running if the latest sample
    keeps it true, and it has returned, after exactly [n] passes, if the
    latest difference is at least 0.006 or is not a number. *)
Theorem screw_pass_protocol :
  (forall g : joint_values,
      actuate g =
      if np_pi / 2 <=? joint6 g
      then [HandGo 0.04 0.04; HandStop;
            ArmGo (Joints (joint0 g) (joint1 g) (joint2 g) (joint3 g)
                          (joint4 g) (joint5 g) (-7 * np_pi / 8));
            ArmStop]
      else [GraspGoal 0.03 0.01 0.01 10 0.05; Sleep 1;
            ArmGo (Joints (joint0 g) (joint1 g) (joint2 g) (joint3 g)
                          (joint4 g) (joint5 g) (7 * np_pi / 8));
            ArmStop]) /\
  (np_pi / 2 = 1.5707963267948966 /\
   -7 * np_pi / 8 = -2.748893571891069 /\
   7 * np_pi / 8 = 2.748893571891069) /\
  (forall e n,
      passes e (S n) =
      passes e n ++ actuate (joint_reads e (S n)) ++ [WaitScrewPos]) /\
  (forall e z n zn,
      screw_pos e 0 = Some z ->
      (forall k, (k < n)%nat ->
         exists zk, screw_pos e k = Some zk /\ (z - zk <? 0.006) = true) ->
      screw_pos e n = Some zn ->
      ((z - zn <? 0.006) = true -> screw e n = Running (after e z n zn)) /\
      ((0.006 <=? z - zn) = true \/ is_nan (z - zn) = true ->
       forall fuel, (n <= fuel)%nat ->
         screw e fuel = Done (after e z n zn))).
Proof.
  split; [reflexivity |].
  split; [conjuncts; evaluate |].
  split; [reflexivity |].
  intros e z n zn H0 Hgo Hn. split.
  - now apply still_running.
  - intros Hstop. apply (test_fails_iff (z - zn) 0.006 eq_refl) in Hstop.
    now apply returns_after.
Qed.

Lemma synthetic_feed_keeps_going (k : nat) :
  (k < 4)%nat ->
  exists zk, synthetic_feed k = Some zk /\ (0.100 - zk <? 0.006) = true.
Proof.
  intros Hk. destruct k as [|[|[|[|k]]]];
    [eexists; split; reflexivity .. | lia].
Qed.

Lemma screw_pass_protocol_witness :
  screw (Env ready_arm synthetic_feed) 4 =
  Done (after (Env ready_arm synthetic_feed) 0.100 4 0.093).
Proof.
  apply (proj2 (proj2 (proj2 (proj2 screw_pass_protocol))
                  (Env ready_arm synthetic_feed) 0.100 4%nat 0.093
                  eq_refl synthetic_feed_keeps_going eq_refl)).
  - left. reflexivity.
  - lia.
Defined.

(** The claim C4 as stated fails on a sample that is not a number: the
    loop returns after one pass although the progress is not at least
    0.006. *)
Lemma nan_sample_ends_loop :
  exists s,
    screw (Env still_arm (feed_with_nan_at 1 0.100)) 5 = Done s /\
    iters s = 1%nat /\
    (0.006 <=? z0 s - z2 s) = false.
Proof. eexists. conjuncts; evaluate. Qed.

(** C5.  On the synthetic sequence z0 = 0.100, then 0.100, 0.098, 0.096,
    0.093, whatever the arm reports, the loop is still running after three
    passes and returns after exactly four. *)
Theorem synthetic_sequence_four_passes :
  forall (arm : nat -> joint_values) (fuel : nat),
    let e := Env arm synthetic_feed in
    screw e 3 = Running (after e 0.100 3 0.096) /\
    screw e (4 + fuel) = Done (after e 0.100 4 0.093) /\
    iters (after e 0.100 4 0.093) = 4%nat.
Proof.
  intros arm fuel e.
  assert (Hgo3 : forall k, (k < 3)%nat ->
            exists zk, screw_pos e k = Some zk /\ (0.100 - zk <? 0.006) = true).
  { intros k Hk. apply synthetic_feed_keeps_going. lia. }
  split; [| split; [| reflexivity]].
  - apply (still_running e 0.100 0.096 3 eq_refl Hgo3 eq_refl). reflexivity.
  - apply (returns_after e 0.100 0.093 4 eq_refl
             synthetic_feed_keeps_going eq_refl).
    + reflexivity.
    + lia.
Qed.

(** However the loop ends, it ends in a state: [NoEntrySample] is an
    outcome of the read before the loop only. *)
Lemma screw_loop_has_state (e : env) (fuel : nat) :
  forall s, exists s', final_state (screw_loop e fuel s) = Some s'.
Proof.
  induction fuel as [|fuel IH]; intros s; cbn [screw_loop];
    destruct (loop_test s); try (eexists; reflexivity).
  destruct (screw_pos e (S (iters s))) as [z|];
    [apply IH | eexists; reflexivity].
Qed.

(** Passes that all read the wrist at or above pi/2 are Reset passes. *)
Lemma passes_at_limit (e : env) (n k : nat) :
  (forall i, (n < i <= n + k)%nat ->
     (np_pi / 2 <=? joint6 (joint_reads e i)) = true) ->
  passes e (n + k) =
  passes e n ++
  flat_map (fun i =>
              let g := joint_reads e i in
              [HandGo 0.04 0.04; HandStop;
               ArmGo (Joints (joint0 g) (joint1 g) (joint2 g) (joint3 g)
                             (joint4 g) (joint5 g) (-7 * np_pi / 8));
               ArmStop; WaitScrewPos])
           (seq (S n) k).
Proof.
  induction k as [|k IH]; intros Hlim.
  - now rewrite Nat.add_0_r, app_nil_r.
  - rewrite Nat.add_succ_r. cbn [passes].
    rewrite IH by (intros i Hi; apply Hlim; lia).
    rewrite seq_S, flat_map_app. cbn [flat_map]. rewrite app_nil_r.
    unfold actuate. rewrite (Hlim (S (n + k))) by lia.
    rewrite <- app_assoc. reflexivity.
Qed.

(** A pass that reads the wrist below pi/2 is an Engage pass. *)
Lemma pass_below_limit (e : env) (m : nat) :
  (np_pi / 2 <=? joint6 (joint_reads e (S m))) = false ->
  passes e (S m) =
  passes e m ++
  (let g := joint_reads e (S m) in
   [GraspGoal 0.03 0.01 0.01 10 0.05; Sleep 1;
    ArmGo (Joints (joint0 g) (joint1 g) (joint2 g) (joint3 g)
                  (joint4 g) (joint5 g) (7 * np_pi / 8));
    ArmStop; WaitScrewPos]).
Proof.
  intros Hlow. cbn [passes]. unfold actuate. rewrite Hlow. reflexivity.
Qed.

(** After [n] passes that kept the test of line 207 true, the run with
    [n] units of fuel is in the state [after e z n zn]: still in the loop
    if the latest sample keeps the test true, returned otherwise. *)
Lemma screw_after (e : env) (z zn : float) (n : nat) :
  screw_pos e 0 = Some z ->
  (forall i, (i < n)%nat ->
     exists zi, screw_pos e i = Some zi /\ (z - zi <? 0.006) = true) ->
  screw_pos e n = Some zn ->
  screw e n =
  (if z - zn <? 0.006 then Running else Done) (after e z n zn).
Proof.
  intros H0 Hgo Hn. destruct (z - zn <? 0.006) eqn:Htest.
  - now apply still_running.
  - now apply (returns_after e z zn n H0 Hgo Hn Htest n).
Qed.

(** C6 (as amended).  No run of the loop changes the entry height [z0]:
    the loop always ends in a state, and [z0] there is what it was.  Each
    pass that reads the wrist at or above pi/2 is one Reset pass: it opens
    the gripper, sends the arm to the reading with its wrist entry set to
    -7*pi/8 and waits for the next sample; Reset passes go on for as long
    as the wrist is read at or above pi/2, the first pass that reads it
    below is an Engage pass, and [z0] is the entry sample after all of
    them.  When the wrist is read where the Reset sent it, at -7*pi/8,
    which is below pi/2, there is exactly one Reset pass before that
    Engage pass. *)
Theorem reset_passes_follow_the_readings :
  (forall e fuel s, exists s',
      final_state (screw_loop e fuel s) = Some s' /\ z0 s' = z0 s) /\
  (forall e z n k zn,
      screw_pos e 0 = Some z ->
      (forall i, (i < S (n + k))%nat ->
         exists zi, screw_pos e i = Some zi /\ (z - zi <? 0.006) = true) ->
      screw_pos e (S (n + k)) = Some zn ->
      (forall i, (n < i <= n + k)%nat ->
         (np_pi / 2 <=? joint6 (joint_reads e i)) = true) ->
      (np_pi / 2 <=? joint6 (joint_reads e (S (n + k)))) = false ->
      screw e (S (n + k)) =
      (if z - zn <? 0.006 then Running else Done)
        {| z0 := z; z1 := z; z2 := zn; iters := S (n + k);
           log := prelude e ++ [Print [z; z; z]] ++
                  (passes e n ++
                   flat_map
                     (fun i =>
                        let g := joint_reads e i in
                        [HandGo 0.04 0.04; HandStop;
                         ArmGo (Joints (joint0 g) (joint1 g) (joint2 g)
                                       (joint3 g) (joint4 g) (joint5 g)
                                       (-7 * np_pi / 8));
                         ArmStop; WaitScrewPos])
                     (seq (S n) k)) ++
                  (let g := joint_reads e (S (n + k)) in
                   [GraspGoal 0.03 0.01 0.01 10 0.05; Sleep 1;
                    ArmGo (Joints (joint0 g) (joint1 g) (joint2 g)
                                  (joint3 g) (joint4 g) (joint5 g)
                                  (7 * np_pi / 8));
                    ArmStop; WaitScrewPos]) |}) /\
  (forall e z n zn,
      screw_pos e 0 = Some z ->
      (forall i, (i < S (S n))%nat ->
         exists zi, screw_pos e i = Some zi /\ (z - zi <? 0.006) = true) ->
      screw_pos e (S (S n)) = Some zn ->
      (np_pi / 2 <=? joint6 (joint_reads e (S n))) = true ->
      joint6 (joint_reads e (S (S n))) = -7 * np_pi / 8 ->
      screw e (S (S n)) =
      (if z - zn <? 0.006 then Running else Done)
        {| z0 := z; z1 := z; z2 := zn; iters := S (S n);
           log := prelude e ++ [Print [z; z; z]] ++
                  (passes e n ++
                   (let g := joint_reads e (S n) in
                    [HandGo 0.04 0.04; HandStop;
                     ArmGo (Joints (joint0 g) (joint1 g) (joint2 g)
                                   (joint3 g) (joint4 g) (joint5 g)
                                   (-7 * np_pi / 8));
                     ArmStop; WaitScrewPos])) ++
                  (let g := joint_reads e (S (S n)) in
                   [GraspGoal 0.03 0.01 0.01 10 0.05; Sleep 1;
                    ArmGo (Joints (joint0 g) (joint1 g) (joint2 g)
                                  (joint3 g) (joint4 g) (joint5 g)
                                  (7 * np_pi / 8));
                    ArmStop; WaitScrewPos]) |}).
Proof.
  assert (Hgen : forall e z n k zn,
    screw_pos e 0 = Some z ->
    (forall i, (i < S (n + k))%nat ->
       exists zi, screw_pos e i = Some zi /\ (z - zi <? 0.006) = true) ->
    screw_pos e (S (n + k)) = Some zn ->
    (forall i, (n < i <= n + k)%nat ->
       (np_pi / 2 <=? joint6 (joint_reads e i)) = true) ->
    (np_pi / 2 <=? joint6 (joint_reads e (S (n + k)))) = false ->
    screw e (S (n + k)) =
    (if z - zn <? 0.006 then Running else Done)
      {| z0 := z; z1 := z; z2 := zn; iters := S (n + k);
         log := prelude e ++ [Print [z; z; z]] ++
                (passes e n ++
                 flat_map
                   (fun i =>
                      let g := joint_reads e i in
                      [HandGo 0.04 0.04; HandStop;
                       ArmGo (Joints (joint0 g) (joint1 g) (joint2 g)
                                     (joint3 g) (joint4 g) (joint5 g)
                                     (-7 * np_pi / 8));
                       ArmStop; WaitScrewPos])
                   (seq (S n) k)) ++
                (let g := joint_reads e (S (n + k)) in
                 [GraspGoal 0.03 0.01 0.01 10 0.05; Sleep 1;
                  ArmGo (Joints (joint0 g) (joint1 g) (joint2 g)
                                (joint3 g) (joint4 g) (joint5 g)
                                (7 * np_pi / 8));
                  ArmStop; WaitScrewPos]) |}).
  { intros e z n k zn H0 Hgo Hn Hlim Hlow.
    rewrite (screw_after e z zn (S (n + k)) H0 Hgo Hn).
    unfold after.
    rewrite (pass_below_limit e (n + k) Hlow), (passes_at_limit e n k Hlim).
    reflexivity. }
  split; [| split].
  - intros e fuel s. destruct (screw_loop_has_state e fuel s) as [s' Hs'].
    exists s'. split; [exact Hs' |].
    now apply (loop_keeps_entry_height e fuel s s').
  - exact Hgen.
  - intros e z n zn H0 Hgo Hn Hlim Hthere.
    assert (Hlow : (np_pi / 2 <=? joint6 (joint_reads e (S (n + 1)))) = false).
    { replace (n + 1)%nat with (S n) by lia. rewrite Hthere. reflexivity. }
    replace (S n) with (n + 1)%nat in * by lia.
    rewrite (Hgen e z n 1%nat zn H0 Hgo Hn); [| | exact Hlow].
    + cbn [seq flat_map]. rewrite app_nil_r.
      replace (S n) with (n + 1)%nat by lia. reflexivity.
    + intros i Hi. replace i with (n + 1)%nat by lia. exact Hlim.
Qed.

Lemma constant_feed_keeps_test (k : nat) :
  exists zk,
    constant_feed 0.100 k = Some zk /\ (0.100 - zk <? 0.006) = true.
Proof. eexists. conjuncts; evaluate. Qed.

Lemma reset_passes_follow_the_readings_witness :
  let e := Env ready_arm (constant_feed 0.100) in
  screw e 3 =
  Running
    {| z0 := 0.100; z1 := 0.100; z2 := 0.100; iters := 3;
       log := prelude e ++ [Print [0.100; 0.100; 0.100]] ++
              (passes e 1 ++
               [HandGo 0.04 0.04; HandStop;
                ArmGo (Joints 0 (-0.785) 0 (-2.356) 0 1.571
                              (-7 * np_pi / 8));
                ArmStop; WaitScrewPos]) ++
              [GraspGoal 0.03 0.01 0.01 10 0.05; Sleep 1;
               ArmGo (Joints 0 (-0.785) 0 (-2.356) 0 1.571 (7 * np_pi / 8));
               ArmStop; WaitScrewPos] |}.
Proof.
  intros e.
  apply (proj2 (proj2 reset_passes_follow_the_readings)
           e 0.100 1%nat 0.100 eq_refl
           (fun i _ => constant_feed_keeps_test i) eq_refl);
    reflexivity.
Defined.

(** The claim C6 as stated fails on an arm whose wrist stays at 7*pi/8,
    at or above pi/2, whatever it is sent: on a feed that shows no
    progress every one of the first fifty passes is a Reset pass, and no
    Engage pass follows the first Reset. *)
Lemma stuck_wrist_resets_every_pass :
  let e := Env stuck_arm (constant_feed 0.100) in
  (np_pi / 2 <=? 7 * np_pi / 8) = true /\
  screw e 50 =
  Running
    {| z0 := 0.100; z1 := 0.100; z2 := 0.100; iters := 50;
       log := prelude e ++ [Print [0.100; 0.100; 0.100]] ++
              concat
                (repeat
                   [HandGo 0.04 0.04; HandStop;
                    ArmGo (Joints 0 0 0 0 0 0 (-7 * np_pi / 8));
                    ArmStop; WaitScrewPos] 50) |}.
Proof. intros e. conjuncts; evaluate. Qed.

(** C8 (as amended).  The loop has no bound on its passes: on an infinite
    feed in which, for every sample z (the entry sample included), the
    difference z0 - z is a number and is not at least 0.006, the loop is
    still running after any number of passes.  A feed that stops stalls the
    controller for good, at the entry read or inside the loop. *)
Theorem screw_unbounded :
  (forall e z,
      screw_pos e 0 = Some z ->
      (forall k, exists zk,
          screw_pos e k = Some zk /\
          is_nan (z - zk) = false /\ (0.006 <=? z - zk) = false) ->
      forall fuel, exists s,
        screw e fuel = Running s /\ iters s = fuel) /\
  (forall e z n,
      screw_pos e 0 = Some z ->
      (forall k, (k <= n)%nat ->
         exists zk, screw_pos e k = Some zk /\ (z - zk <? 0.006) = true) ->
      screw_pos e (S n) = None ->
      forall fuel, (n < fuel)%nat -> exists s,
        screw e fuel = Blocked s /\ iters s = n /\
        exists l, log s = l ++ [WaitScrewPos]) /\
  (forall e fuel,
      screw_pos e 0 = None -> screw e fuel = NoEntrySample (prelude e)).
Proof.
  split; [| split].
  - intros e z H0 Hall fuel.
    destruct (Hall fuel) as (zn & Hn & Hnan & Hle).
    exists (after e z fuel zn). split; [| reflexivity].
    apply still_running; auto.
    + intros k _. destruct (Hall k) as (zk & Hk & Hnank & Hlek).
      exists zk. split; [assumption |].
      now apply keeps_going_of_no_progress.
    + now apply keeps_going_of_no_progress.
  - intros e z n H0 Hgo Hnone fuel Hfuel.
    destruct (Hgo n (Nat.le_refl n)) as (zn & Hn & Htest).
    eexists. split; [| split].
    + apply (stalls_after e z zn n H0); auto.
      intros k Hk. apply Hgo. lia.
    + reflexivity.
    + unfold issue, body_actions. cbn [log].
      eexists. rewrite app_assoc. reflexivity.
  - intros e fuel H. unfold screw. now rewrite H.
Qed.

Lemma constant_feed_no_progress (k : nat) :
  exists zk,
    constant_feed 0.100 k = Some zk /\
    is_nan (0.100 - zk) = false /\ (0.006 <=? 0.100 - zk) = false.
Proof. eexists. conjuncts; evaluate. Qed.

Lemma screw_unbounded_witness :
  exists s,
    screw (Env still_arm (constant_feed 0.100)) 1000 = Running s /\
    iters s = 1000%nat.
Proof.
  exact (proj1 screw_unbounded (Env still_arm (constant_feed 0.100)) 0.100
           eq_refl constant_feed_no_progress 1000%nat).
Defined.

(** The claim C8 as stated fails on a feed with a sample that is not a
    number: no sample z of the infinite feed has z0 - z >= 0.006, and yet
    the loop returns, after two passes. *)
Lemma nan_sample_stops_unbounded_loop :
  let feed := feed_with_nan_at 2 0.100 in
  (forall k, exists zk,
      feed k = Some zk /\ (0.006 <=? 0.100 - zk) = false) /\
  exists s, screw (Env still_arm feed) 2 = Done s /\ iters s = 2%nat.
Proof.
  intros feed. split.
  - intros k. unfold feed, feed_with_nan_at.
    destruct (Nat.eqb k 2); eexists; conjuncts; evaluate.
  - eexists. conjuncts; evaluate.
Qed.

(** C10 (as amended).  When the entry sample is a finite number, the first
    test of line 207 compares it with itself and succeeds (z0 - z0 = 0 <
    0.006), so [screw] never returns without a complete pass through the
    loop body. *)
Theorem first_pass_always_runs :
  forall e z,
    screw_pos e 0 = Some z ->
    is_finite z = true ->
    loop_test (entry e z) = true /\
    (forall fuel s, screw e fuel = Done s -> (1 <= iters s)%nat).
Proof.
  intros e z H0 Hfin.
  assert (Htest : loop_test (entry e z) = true).
  { unfold loop_test. cbn [entry z0 z2]. now apply entry_test_finite. }
  split; [exact Htest |].
  intros fuel s. rewrite (screw_at_entry e z fuel H0).
  destruct fuel as [|fuel].
  - simpl. rewrite Htest. discriminate.
  - rewrite screw_loop_step, Htest.
    destruct (screw_pos e (S (iters (entry e z)))) as [z'|];
      [| discriminate].
    intros H.
    destruct (loop_keeps_entry_height e fuel _ s (f_equal final_state H))
      as (_ & _ & Hi).
    exact Hi.
Qed.

Lemma first_pass_always_runs_witness :
  loop_test (entry (Env still_arm synthetic_feed) 0.100) = true /\
  (forall fuel s,
      screw (Env still_arm synthetic_feed) fuel = Done s ->
      (1 <= iters s)%nat).
Proof.
  exact (first_pass_always_runs (Env still_arm synthetic_feed) 0.100
           eq_refl eq_refl).
Defined.

(** The claim C10 as stated fails on an entry sample that is not a number,
    or is infinite: the first test fails and [screw] returns without a
    single pass. *)
Lemma nan_entry_skips_loop :
  exists s s',
    screw (Env still_arm (constant_feed nan)) 5 = Done s /\
    iters s = 0%nat /\
    screw (Env still_arm (constant_feed infinity)) 5 = Done s' /\
    iters s' = 0%nat.
Proof. do 2 eexists. conjuncts; evaluate. Qed.

(** The two loops agree on what can be observed as long as they agree on
    [z0], [z2], the pass counter and the requests made so far. *)
Lemma loops_agree (e : env) (fuel : nat) :
  forall (s : state) (t : ScrewNoZ1.state),
    z0 s = ScrewNoZ1.z0 t ->
    z2 s = ScrewNoZ1.z2 t ->
    iters s = ScrewNoZ1.iters t ->
    filter is_actuation (log s) = filter is_actuation (ScrewNoZ1.log t) ->
    observe (screw_loop e fuel s) =
    ScrewNoZ1.observe (ScrewNoZ1.screw_loop e fuel t).
Proof.
  induction fuel as [|fuel IH]; intros s t H0 H2 Hi Hlog.
  - simpl. unfold loop_test, ScrewNoZ1.loop_test. rewrite H0, H2.
    destruct (_ <? _); simpl; now rewrite Hi, Hlog.
  - rewrite screw_loop_step. cbn [ScrewNoZ1.screw_loop].
    unfold loop_test, ScrewNoZ1.loop_test. rewrite H0, H2.
    destruct (_ <? _); [| simpl; now rewrite Hi, Hlog].
    unfold body_actions, ScrewNoZ1.body_actions. rewrite Hi.
    destruct (screw_pos e (S (ScrewNoZ1.iters t))) as [z|].
    + apply IH; cbn; try assumption; try reflexivity.
      * now rewrite Hi.
      * now rewrite !filter_app, Hlog.
    + cbn. now rewrite Hi, !filter_app, Hlog.
Qed.

(** C9.  [z1] keeps the value it got at loop entry, no decision of the
    loop depends on it, and the controller without it issues the same
    requests, makes the same number of passes and ends the same way, on
    every feed and every series of joint readings. *)
Theorem z1_is_dead :
  (forall e fuel s s',
      final_state (screw_loop e fuel s) = Some s' -> z1 s' = z1 s) /\
  (forall e fuel s v,
      observe (screw_loop e fuel
                 {| z0 := z0 s; z1 := v; z2 := z2 s; iters := iters s;
                    log := log s |}) =
      observe (screw_loop e fuel s)) /\
  (forall e fuel,
      observe (screw e fuel) = ScrewNoZ1.observe (ScrewNoZ1.screw e fuel)).
Proof.
  split; [| split].
  - intros e fuel s s' H. now apply (loop_keeps_entry_height e fuel s s').
  - intros e fuel s v.
    set (t := {| ScrewNoZ1.z0 := z0 s; ScrewNoZ1.z2 := z2 s;
                 ScrewNoZ1.iters := iters s; ScrewNoZ1.log := log s |}).
    rewrite (loops_agree e fuel _ t), (loops_agree e fuel s t);
      reflexivity.
  - intros e fuel. unfold screw, ScrewNoZ1.screw.
    destruct (screw_pos e 0) as [z|]; [| reflexivity].
    apply loops_agree; reflexivity.
Qed.

Lemma z1_is_dead_witness :
  z1 (after (Env still_arm synthetic_feed) 0.100 4 0.093) = 0.100.
Proof.
  exact (proj1 z1_is_dead (Env still_arm synthetic_feed) 4%nat
           (entry (Env still_arm synthetic_feed) 0.100)
           (after (Env still_arm synthetic_feed) 0.100 4 0.093) eq_refl).
Defined.

End ScrewFacts.

(** ** Pose synthesis: properties *)

Module PoseFacts.

Import Pose Inputs FloatFacts.
Local Open Scope float_scope.

(** *** [quaternion_matrix] never raises *)

(** The argument of [math.sqrt] in [quaternion_matrix] is never negative. *)
Lemma sqrt_argument_not_negative (nq : float) :
  not_negative (Prim2SF nq) -> (nq <? _EPS) = false -> (2 / nq <? 0) = false.
Proof.
  intros Hnn Heps. rewrite ltb_spec in Heps. rewrite ltb_spec, div_spec.
  change (Prim2SF 0) with (S754_zero false).
  assert (H2 : exists m e, Prim2SF 2 = S754_finite false m e)
    by (do 2 eexists; reflexivity).
  assert (He : exists m e, Prim2SF _EPS = S754_finite false m e)
    by (do 2 eexists; reflexivity).
  destruct H2 as (m2 & e2 & ->). destruct He as (me & ee & He).
  rewrite He in Heps. unfold SF64div.
  destruct (Prim2SF nq) as [s|s| |s m e]; simpl in Hnn.
  - discriminate Heps.
  - subst s. reflexivity.
  - reflexivity.
  - subst s. cbn [SFdiv xorb].
    destruct (SFdiv_core_binary _ _ _ _ _ _) as [[mz ez] lz].
    apply not_negative_ltb_zero, round_not_negative.
Qed.

Lemma quaternion_matrix_returns (q : quat) :
  exists R, quaternion_matrix q = Ret R.
Proof.
  unfold quaternion_matrix.
  destruct (_ <? _EPS) eqn:Heps; [eexists; reflexivity |].
  unfold math_sqrt. rewrite sqrt_argument_not_negative.
  - eexists; reflexivity.
  - repeat apply sum_not_negative; apply square_not_negative.
  - exact Heps.
Qed.

Lemma sensed_axis_returns (q : quat) : exists z, sensed_axis q = Ret z.
Proof.
  unfold sensed_axis. destruct (quaternion_matrix_returns q) as [R ->].
  eexists; reflexivity.
Qed.

Lemma frame_builder_returns (q : quat) : exists f, frame_builder q = Ret f.
Proof.
  unfold frame_builder. destruct (sensed_axis_returns q) as [z ->].
  cbn [bind]. destruct (isclose _ _); eexists; reflexivity.
Qed.

(** *** The test of line 315 *)

(** [np.isclose(x, 1)] holds exactly when [|x - 1| <= 1e-08 + 1e-05 * 1],
    a bound that evaluates to 1.001e-05; an infinite or NaN [x] fails
    both. *)
Lemma isclose_one (x : float) :
  isclose x 1 = (abs (x - 1) <=? 0x1.4fe13ec9bf514p-17).
Proof.
  unfold isclose.
  replace (is_finite 1) with true by reflexivity.
  replace (1e-08 + 1e-05 * abs 1) with 0x1.4fe13ec9bf514p-17
    by reflexivity.
  rewrite andb_true_r, is_finite_SF.
  destruct (Prim2SF x) as [s|s| |s m e] eqn:E; try reflexivity;
    rewrite FloatAxioms.eqb_spec, leb_spec, abs_spec, sub_spec, E;
    assert (H1 : exists m e, Prim2SF 1 = S754_finite false m e)
      by (do 2 eexists; reflexivity);
    assert (Hc : exists m e,
               Prim2SF 0x1.4fe13ec9bf514p-17 = S754_finite false m e)
      by (do 2 eexists; reflexivity);
    destruct H1 as (m1 & e1 & ->); destruct Hc as (mc & ec & ->);
    try destruct s; reflexivity.
Qed.

(** *** The claims about the frame *)

(** C1.  Whenever the third component of the sensed z-axis is within the
    tolerance of 1 ([np.isclose], that is [|z - 1| <= 1.001e-05]), the
    frame is the fixed one of the first branch: the axes (1,0,0), (0,1,0),
    (0,0,1), the offsets -0.0 and 0.07 and the two quaternions built from
    constant Euler angles; two inputs that both take this branch get the
    same frame. *)
Theorem degenerate_branch_is_constant :
  (forall x, isclose x 1 = (abs (x - 1) <=? 1.001e-05)) /\
  (forall q z,
      sensed_axis q = Ret z ->
      isclose (c2 z) 1 = true ->
      frame_builder q =
      Ret {| y_axis := V3 0 0 1;
             z_axis := V3 1 0 0;
             x_axis := V3 0 1 0;
             q2 := quaternion_from_euler np_pi 0 (- tau / 8);
             pos_offset_fixture_x := - 0;
             pos_offset_fixture_z := 0.07;
             q_fixture := quaternion_from_euler np_pi 0 (tau / 8) |}) /\
  (forall q q' z z',
      sensed_axis q = Ret z -> isclose (c2 z) 1 = true ->
      sensed_axis q' = Ret z' -> isclose (c2 z') 1 = true ->
      frame_builder q = frame_builder q') /\
  quaternion_from_euler np_pi 0 (tau / 8) =
  Quat 0.9238795325112867 0.3826834323650898
       2.3432602026631493e-17 5.657130561438501e-17.
Proof.
  assert (H : forall q z,
             sensed_axis q = Ret z -> isclose (c2 z) 1 = true ->
             frame_builder q =
             Ret {| y_axis := V3 0 0 1;
                    z_axis := V3 1 0 0;
                    x_axis := V3 0 1 0;
                    q2 := quaternion_from_euler np_pi 0 (- tau / 8);
                    pos_offset_fixture_x := - 0;
                    pos_offset_fixture_z := 0.07;
                    q_fixture := quaternion_from_euler np_pi 0 (tau / 8) |}).
  { intros q z Hz Hclose. unfold frame_builder. rewrite Hz. cbn [bind].
    now rewrite Hclose. }
  split; [exact isclose_one | split; [exact H | split; [| evaluate]]].
  intros q q' z z' Hz Hc Hz' Hc'.
  now rewrite (H q z Hz Hc), (H q' z' Hz' Hc').
Qed.

Lemma degenerate_branch_is_constant_witness :
  sensed_axis upright = Ret (V3 0 0 1) /\
  isclose 1 1 = true /\
  frame_builder upright =
  Ret {| y_axis := V3 0 0 1;
         z_axis := V3 1 0 0;
         x_axis := V3 0 1 0;
         q2 := quaternion_from_euler np_pi 0 (- tau / 8);
         pos_offset_fixture_x := - 0;
         pos_offset_fixture_z := 0.07;
         q_fixture := quaternion_from_euler np_pi 0 (tau / 8) |}.
Proof.
  split; [evaluate | split; [evaluate |]].
  apply (proj1 (proj2 degenerate_branch_is_constant) upright (V3 0 0 1));
    evaluate.
Defined.

(** C2 is violated by the code on a nut that is turned over, exactly or
    up to a tilt of 2e-8.  The sensed axis is then within the tolerance of
    -up; the test of line 315 compares its third component with +1 only,
    so the second branch is entered, and nothing is reported: on the exact
    input the zero cross product is divided by its zero norm, and the frame
    and the grasp orientation that are returned are not numbers; on the
    tilted input the cross product of norm 2e-8 is divided by that norm,
    and a frame and a grasp orientation are returned as for any other
    input. *)
Theorem antiparallel_axis_goes_unreported :
  (exists f,
      sensed_axis turned_over = Ret (V3 0 0 (-1.0000000000000004)) /\
      isclose (-1.0000000000000004) 1 = false /\
      isclose (-1.0000000000000004) (-1) = true /\
      cross (V3 0 0 (-1.0000000000000004)) (V3 0 0 1) = V3 0 (-0) 0 /\
      norm (V3 0 (-0) 0) = 0 /\
      frame_builder turned_over = Ret f /\
      x_axis f = V3 nan nan nan /\
      y_axis f = V3 nan nan nan /\
      quaternion_from_matrix (basis_matrix f) = Ret (Quat nan nan nan nan) /\
      grasp_orientation turned_over = Ret (Quat nan nan nan nan)) /\
  (exists f q,
      sensed_axis nearly_turned_over =
        Ret (V3 2.0000000000000004e-08 0 (-1.0000000000000004)) /\
      isclose (-1.0000000000000004) 1 = false /\
      isclose (-1.0000000000000004) (-1) = true /\
      cross (V3 2.0000000000000004e-08 0 (-1.0000000000000004)) (V3 0 0 1) =
        V3 0 (-2.0000000000000004e-08) 0 /\
      norm (V3 0 (-2.0000000000000004e-08) 0) = 2.0000000000000004e-08 /\
      frame_builder nearly_turned_over = Ret f /\
      x_axis f = V3 0 (-1) 0 /\
      grasp_orientation nearly_turned_over = Ret q).
Proof.
  split; [eexists | do 2 eexists]; conjuncts; evaluate.
Qed.

(** C3 is violated by the code on a nut that is exactly turned over: the
    input is a unit quaternion, the sensed axis is -up, the second branch
    divides the zero cross product by its zero norm, and the x- and y-axes
    of the returned frame are not numbers. *)
Theorem turned_over_frame_is_not_orthonormal :
  exists f,
    squared_norm turned_over = 1 /\
    sensed_axis turned_over = Ret (V3 0 0 (-1.0000000000000004)) /\
    frame_builder turned_over = Ret f /\
    x_axis f = V3 nan nan nan /\
    y_axis f = V3 nan nan nan /\
    orthonormal_within f = false.
Proof. eexists. conjuncts; evaluate. Qed.

(** On the other example orientations the returned frame passes the
    test. *)
Lemma other_frames_are_orthonormal :
  exists f g h,
    frame_builder upright = Ret f /\ orthonormal_within f = true /\
    frame_builder on_its_side = Ret g /\ orthonormal_within g = true /\
    frame_builder nearly_turned_over = Ret h /\ orthonormal_within h = true.
Proof. do 3 eexists. conjuncts; evaluate. Qed.

(** C7.  The grasp orientation is the quaternion product of the branch
    offset [q2], as the left factor, and the quaternion [qm] of the frame,
    as the right factor, written out component by component; [qm] is the
    quaternion of the matrix whose columns are the z-, x- and y-axes of the
    frame.  In [quaternion_multiply] the first argument is the left factor:
    i times j is k, and j times i is -k.  For a nut on its side the grasp
    orientation is (0.9238795325112867, -0.3826834323650898, 0, 0); the
    product taken the other way round has 0.3826834323650898 as its second
    component, so it is a different quaternion, and not the opposite one
    either, hence a different orientation.  For a tilted nut, whose frame
    matrix is not symmetric, the quaternion of the frame is, within 1e-12,
    (0.6324555320336759, 0.6324555320336759, 0.31622776601683794,
    -0.31622776601683794), the grasp orientation is (0.8263429750863857,
    0.34228246745251345, 0.4131714875431928, -0.17114123372625675), and
    the product taken the other way round has the first two components
    exchanged. *)
Theorem offset_leads_the_product :
  (forall q f qm,
      frame_builder q = Ret f ->
      quaternion_from_matrix (basis_matrix f) = Ret qm ->
      grasp_orientation q =
      Ret (Quat (qx (q2 f) * qw qm + qy (q2 f) * qz qm
                 - qz (q2 f) * qy qm + qw (q2 f) * qx qm)
                (- qx (q2 f) * qz qm + qy (q2 f) * qw qm
                 + qz (q2 f) * qx qm + qw (q2 f) * qy qm)
                (qx (q2 f) * qy qm - qy (q2 f) * qx qm
                 + qz (q2 f) * qw qm + qw (q2 f) * qz qm)
                (- qx (q2 f) * qx qm - qy (q2 f) * qy qm
                 - qz (q2 f) * qz qm + qw (q2 f) * qw qm))) /\
  (forall f i,
      mget (basis_matrix f) i 0 =
        at4 (c0 (z_axis f)) (c1 (z_axis f)) (c2 (z_axis f)) 0 i /\
      mget (basis_matrix f) i 1 =
        at4 (c0 (x_axis f)) (c1 (x_axis f)) (c2 (x_axis f)) 0 i /\
      mget (basis_matrix f) i 2 =
        at4 (c0 (y_axis f)) (c1 (y_axis f)) (c2 (y_axis f)) 0 i /\
      mget (basis_matrix f) i 3 = at4 0 0 0 1 i) /\
  (quaternion_multiply (Quat 1 0 0 0) (Quat 0 1 0 0) = Quat 0 0 1 0 /\
   quaternion_multiply (Quat 0 1 0 0) (Quat 1 0 0 0) = Quat 0 0 (-1) 0) /\
  (exists f,
      frame_builder on_its_side = Ret f /\
      (z_axis f, x_axis f, y_axis f) =
        (V3 1 0 0, V3 0 (-1) 0, V3 0 0 (-1)) /\
      q2 f = Quat 0 0 (-0.3826834323650898) 0.9238795325112867 /\
      quaternion_from_matrix (basis_matrix f) = Ret (Quat 1 0 0 0) /\
      grasp_orientation on_its_side =
        Ret (Quat 0.9238795325112867 (-0.3826834323650898) 0 0) /\
      quaternion_multiply (Quat 1 0 0 0) (q2 f) =
        Quat 0.9238795325112867 0.3826834323650898 0 0 /\
      quaternion_multiply (Quat 1 0 0 0) (q2 f) <>
        Quat 0.9238795325112867 (-0.3826834323650898) 0 0 /\
      quaternion_multiply (Quat 1 0 0 0) (q2 f) <>
        qopp (Quat 0.9238795325112867 (-0.3826834323650898) 0 0)) /\
  (returns_within 1e-12
     (f <- frame_builder tilted ;; quaternion_from_matrix (basis_matrix f))
     (Quat 0.6324555320336759 0.6324555320336759
           0.31622776601683794 (-0.31622776601683794)) = true /\
   returns_within 1e-12 (grasp_orientation tilted)
     (Quat 0.8263429750863857 0.34228246745251345
           0.4131714875431928 (-0.17114123372625675)) = true /\
   returns_within 1e-12
     (f <- frame_builder tilted ;;
      qm <- quaternion_from_matrix (basis_matrix f) ;;
      Ret (quaternion_multiply qm (q2 f)))
     (Quat 0.34228246745251345 0.8263429750863857
           0.4131714875431928 (-0.17114123372625675)) = true).
Proof.
  split; [| split; [| split; [| split]]].
  - intros q f qm Hf Hqm. unfold grasp_orientation.
    rewrite Hf. cbn [bind]. rewrite Hqm. cbn [bind].
    destruct (q2 f), qm. reflexivity.
  - intros f i. unfold basis_matrix, mget.
    destruct i as [|[|[|i]]]; conjuncts; reflexivity.
  - conjuncts; evaluate.
  - eexists. do 6 (split; [evaluate |]). split.
    + intros H. apply (f_equal (fun q => Prim2SF (qy q))) in H.
      vm_compute in H. discriminate H.
    + intros H. apply (f_equal (fun q => Prim2SF (qx q))) in H.
      vm_compute in H. discriminate H.
  - conjuncts; evaluate.
Qed.

Lemma offset_leads_the_product_witness :
  grasp_orientation on_its_side =
  Ret (Quat 0.9238795325112867 (-0.3826834323650898) 0 0).
Proof.
  apply (proj1 offset_leads_the_product on_its_side
           {| y_axis := V3 0 0 (-1);
              z_axis := V3 1 0 0;
              x_axis := V3 0 (-1) 0;
              q2 := quaternion_from_euler 0 0 (- np_pi / 4);
              pos_offset_fixture_x := - 0.1027;
              pos_offset_fixture_z := 0;
              q_fixture :=
                quaternion_from_euler (- tau / 4) (- tau / 8) (- tau / 4) |}
           (Quat 1 0 0 0)); evaluate.
Defined.

End PoseFacts.

(** ** More facts about binary64 arithmetic *)

Module MoreFloatFacts.

Import FloatFacts FloatRelations.
Local Open Scope float_scope.

Lemma ltb_nan_r (x y : float) : is_nan y = true -> (x <? y) = false.
Proof.
  rewrite is_nan_SF, ltb_spec. unfold SFltb.
  destruct (Prim2SF y); try discriminate.
  intros _. destruct (Prim2SF x); reflexivity.
Qed.

Lemma abs_nan (x : float) : is_nan x = true -> is_nan (abs x) = true.
Proof.
  rewrite !is_nan_SF, abs_spec. destruct (Prim2SF x); try discriminate.
  reflexivity.
Qed.

Lemma sub_nan_l (x y : float) : is_nan x = true -> is_nan (x - y) = true.
Proof.
  rewrite !is_nan_SF, sub_spec. destruct (Prim2SF x); try discriminate.
  reflexivity.
Qed.

Lemma sub_nan_r (x y : float) : is_nan y = true -> is_nan (x - y) = true.
Proof.
  rewrite !is_nan_SF, sub_spec. destruct (Prim2SF y); try discriminate.
  intros _. destruct (Prim2SF x); reflexivity.
Qed.

(** Rounding commutes with the sign. *)
Lemma round_opp (s : bool) (m e : Z) (l : location) :
  binary_round_aux prec emax (negb s) m e l =
  SFopp (binary_round_aux prec emax s m e l).
Proof.
  unfold binary_round_aux.
  destruct (shr_fexp prec emax m e l) as [mrs' e'].
  destruct (shr_fexp _ _ _ _ _) as [mrs'' e''].
  destruct (shr_m mrs''); simpl; auto.
  destruct (Z.leb _ _); reflexivity.
Qed.

Lemma normalize_opp (m e : Z) :
  m <> 0%Z ->
  binary_normalize prec emax (- m) e false =
  SFopp (binary_normalize prec emax m e false).
Proof.
  intros Hm. destruct m as [|p|p]; [congruence | |]; simpl;
    unfold binary_round; destruct (shl_align _ _ _) as [mz ez].
  - apply (round_opp false).
  - apply (round_opp true).
Qed.

Lemma mirrored_abs (a b : spec_float) : mirrored a b -> SFabs a = SFabs b.
Proof.
  intros [-> | [[s ->] [s' ->]]]; [| reflexivity].
  destruct a; reflexivity.
Qed.

Lemma sub_mirrored (x y : spec_float) :
  mirrored (SFsub prec emax x y) (SFsub prec emax y x).
Proof.
  destruct x as [sx|sx| |sx mx ex], y as [sy|sy| |sy my ey];
    cbn [SFsub];
    try (left; reflexivity);
    try (left; destruct sx, sy; reflexivity);
    try (left; cbn [SFopp]; now rewrite negb_involutive).
  - right. destruct sx, sy; split; eexists; reflexivity.
  - rewrite (Z.min_comm ey ex).
    set (a := cond_Zopp sx _). set (b := cond_Zopp sy _).
    destruct (Z.eq_dec (a - b) 0) as [E | E].
    + right. replace (b - a)%Z with 0%Z by lia. rewrite E.
      split; eexists; reflexivity.
    + left. replace (b - a)%Z with (- (a - b))%Z by lia.
      now apply normalize_opp.
Qed.

(** [|a - b|] and [|b - a|] are the same number. *)
Lemma abs_sub_comm (a b : float) : abs (a - b) = abs (b - a).
Proof.
  apply Prim2SF_inj. rewrite !abs_spec, !sub_spec.
  apply mirrored_abs, sub_mirrored.
Qed.

(** [|x - x|] is +0 or NaN. *)
Lemma abs_sub_diag (x : float) :
  Prim2SF (abs (x - x)) = S754_zero false \/ is_nan (abs (x - x)) = true.
Proof.
  rewrite is_nan_SF, abs_spec, sub_spec. unfold SF64sub.
  destruct (Prim2SF x) as [s|s| |s m e]; cbn [SFsub].
  - left. destruct s; reflexivity.
  - right. destruct s; reflexivity.
  - right. reflexivity.
  - left. rewrite Z.sub_diag. reflexivity.
Qed.

(** Adding -0.0 changes nothing, not even the sign of a zero. *)
Lemma add_neg_zero (x : float) : x + (- 0) = x.
Proof.
  apply Prim2SF_inj. rewrite add_spec.
  change (Prim2SF (- 0)) with (S754_zero true). unfold SF64add.
  destruct (Prim2SF x) as [s|s| |s m e]; try reflexivity.
  destruct s; reflexivity.
Qed.

(** Products and sums with the opposite factor. *)
Lemma mul_opp_l (x y : float) :
  Prim2SF (- x * y) = SFopp (Prim2SF (x * y)).
Proof.
  rewrite !mul_spec, opp_spec. unfold SF64mul.
  destruct (Prim2SF x) as [sx|sx| |sx mx ex],
           (Prim2SF y) as [sy|sy| |sy my ey];
    cbn [SFmul SFopp]; try reflexivity;
    try (destruct sx, sy; reflexivity).
  rewrite <- round_opp. now destruct sx, sy.
Qed.

Lemma mul_opp_r (x y : float) :
  Prim2SF (x * - y) = SFopp (Prim2SF (x * y)).
Proof.
  rewrite !mul_spec, opp_spec. unfold SF64mul.
  destruct (Prim2SF x) as [sx|sx| |sx mx ex],
           (Prim2SF y) as [sy|sy| |sy my ey];
    cbn [SFmul SFopp]; try reflexivity;
    try (destruct sx, sy; reflexivity).
  rewrite <- round_opp. now destruct sx, sy.
Qed.

Lemma cont_is_compare (m1 m2 : positive) :
  Pos.compare_cont Eq m1 m2 = (m1 ?= m2)%positive.
Proof.
  rewrite Pos.compare_cont_spec. destruct (m1 ?= m2)%positive; reflexivity.
Qed.

Lemma SFleb_ltb_trans (a b c : spec_float) :
  SFleb a b = true -> SFltb b c = true -> SFltb a c = true.
Proof.
  unfold SFleb, SFltb.
  destruct a as [sa|sa| |sa ma ea], b as [sb|sb| |sb mb eb],
           c as [sc|sc| |sc mc ec]; cbn [SFcompare];
    try discriminate;
    try (destruct sa, sb, sc; simpl; congruence).
  destruct sa, sb, sc; simpl; try congruence;
    rewrite ?(cont_is_compare ma mb), ?(cont_is_compare mb mc),
            ?(cont_is_compare ma mc);
    destruct (Z.compare_spec ea eb), (Z.compare_spec eb ec),
             (Z.compare_spec ea ec); simpl; try congruence; try lia;
    subst;
    destruct (Pos.compare_spec ma mb), (Pos.compare_spec mb mc),
             (Pos.compare_spec ma mc); simpl; try congruence; try lia.
Qed.

(** [a <= b < c] gives [a < c], on all binary64 values. *)
Lemma leb_ltb_trans (a b c : float) :
  (a <=? b) = true -> (b <? c) = true -> (a <? c) = true.
Proof. rewrite leb_spec, !ltb_spec. apply SFleb_ltb_trans. Qed.

Lemma cond_Zopp_negb (s : bool) (m : Z) :
  cond_Zopp (negb s) m = (- cond_Zopp s m)%Z.
Proof. destruct s; simpl; lia. Qed.

Lemma add_mirrored (a a' c c' : spec_float) :
  mirrored a a' -> mirrored c c' ->
  mirrored (SFadd prec emax a c) (SFadd prec emax a' c').
Proof.
  intros [-> | [[sa ->] [sa' ->]]] [-> | [[sc ->] [sc' ->]]].
  - destruct a as [sx|sx| |sx mx ex], c as [sy|sy| |sy my ey];
      cbn [SFadd SFopp];
      try (left; reflexivity);
      try (left; destruct sx, sy; reflexivity).
    + right. destruct sx, sy; split; eexists; reflexivity.
    + rewrite !cond_Zopp_negb.
      set (u := cond_Zopp sx _). set (v := cond_Zopp sy _).
      destruct (Z.eq_dec (u + v) 0) as [E | E].
      * right. replace (- u + - v)%Z with 0%Z by lia. rewrite E.
        split; eexists; reflexivity.
      * left. replace (- u + - v)%Z with (- (u + v))%Z by lia.
        now apply normalize_opp.
  - destruct a as [sx|sx| |sx mx ex]; cbn [SFadd SFopp].
    + right. destruct sx, sc, sc'; split; eexists; reflexivity.
    + left. reflexivity.
    + left. reflexivity.
    + left. reflexivity.
  - destruct c as [sy|sy| |sy my ey]; cbn [SFadd SFopp].
    + right. destruct sa, sa', sy; split; eexists; reflexivity.
    + left. reflexivity.
    + left. reflexivity.
    + left. reflexivity.
  - right. cbn [SFadd].
    destruct sa, sa', sc, sc'; split; eexists; reflexivity.
Qed.

End MoreFloatFacts.

(** ** [all_close] and [open_gripper]: properties *)

Module AllCloseFacts.

Import AllClose FloatFacts FloatRelations MoreFloatFacts.
Local Open Scope float_scope.

Lemma skipn_nth_error (l : list float) (k : nat) (a : float) :
  nth_error l k = Some a -> skipn k l = a :: skipn (S k) l.
Proof.
  revert k. induction l as [|b l IH]; intros [|k] H; try discriminate.
  - now injection H as ->.
  - simpl in H. now apply IH.
Qed.

Lemma skipn_nth_error_none (l : list float) (k : nat) :
  nth_error l k = None -> skipn k l = [].
Proof.
  intros H. apply skipn_all2. now apply nth_error_None.
Qed.

(** The loop of lines 43-45 when [actual] has an entry for every index. *)
Lemma compare_from_long (goal actual : list float) (tolerance : float) :
  forall k,
    (k + length goal <= length actual)%nat ->
    compare_from k goal actual tolerance =
    Returns (forallb (within tolerance) (combine goal (skipn k actual))).
Proof.
  induction goal as [|g goal IH]; intros k Hlen; [reflexivity |].
  simpl in Hlen. cbn [compare_from].
  destruct (nth_error actual k) as [a|] eqn:Ha.
  - rewrite (skipn_nth_error actual k a Ha). cbn [combine forallb].
    unfold within at 1. cbn [fst snd].
    destruct (tolerance <? abs (a - g)); [reflexivity |].
    cbn [negb andb]. apply IH. lia.
  - apply nth_error_None in Ha. lia.
Qed.

(** The same loop when [actual] runs out first. *)
Lemma compare_from_short (goal actual : list float) (tolerance : float) :
  forall k,
    (k <= length actual)%nat ->
    (length actual < k + length goal)%nat ->
    compare_from k goal actual tolerance =
    if forallb (within tolerance) (combine goal (skipn k actual))
    then Raises IndexError else Returns false.
Proof.
  induction goal as [|g goal IH]; intros k Hk Hlen.
  - simpl in Hlen. lia.
  - cbn [compare_from].
    destruct (nth_error actual k) as [a|] eqn:Ha.
    + rewrite (skipn_nth_error actual k a Ha). cbn [combine forallb].
      unfold within at 1. cbn [fst snd].
      destruct (tolerance <? abs (a - g)); [reflexivity |].
      cbn [negb andb].
      assert (k < length actual)%nat
        by (apply nth_error_Some; congruence).
      apply IH; simpl in Hlen; lia.
    + rewrite (skipn_nth_error_none actual k Ha). reflexivity.
Qed.

(** A difference with NaN in it is never beyond the tolerance. *)
Lemma within_nan (tolerance g a : float) :
  is_nan a = true \/ is_nan g = true -> within tolerance (g, a) = true.
Proof.
  intros H. unfold within. cbn [fst snd].
  rewrite ltb_nan_r; [reflexivity |].
  apply abs_nan. destruct H; [now apply sub_nan_l | now apply sub_nan_r].
Qed.

Lemma within_refl (tolerance x : float) :
  (tolerance <? 0) = false -> within tolerance (x, x) = true.
Proof.
  intros Htol. unfold within. cbn [fst snd].
  destruct (abs_sub_diag x) as [H | H].
  - rewrite ltb_spec, H. change (S754_zero false) with (Prim2SF 0).
    now rewrite <- ltb_spec, Htol.
  - now rewrite ltb_nan_r.
Qed.

Lemma within_swap (tolerance g a : float) :
  within tolerance (g, a) = within tolerance (a, g).
Proof. unfold within. cbn [fst snd]. now rewrite abs_sub_comm. Qed.

Lemma combine_app_r (goal actual extra : list float) :
  (length goal <= length actual)%nat ->
  combine goal (actual ++ extra) = combine goal actual.
Proof.
  revert actual.
  induction goal as [|g goal IH]; intros [|a actual] H; simpl in *;
    try reflexivity; try lia.
  rewrite IH by lia. reflexivity.
Qed.

(** What [all_close] answers on two lists, the second long enough. *)
Lemma lists_verdict
    (dist : float * float * float -> float * float * float -> float)
    (cos : float -> float) (goal actual : list float) (tolerance : float) :
  (length goal <= length actual)%nat ->
  all_close dist cos (VList goal) (VList actual) tolerance =
  Returns (forallb (within tolerance) (combine goal actual)).
Proof.
  intros Hlen. cbn [all_close].
  now rewrite (compare_from_long goal actual tolerance 0 Hlen).
Qed.

(** X1.  On two lists, when [actual] has at least as many entries as
    [goal], the answer is True exactly when no entry of [goal] is farther
    than the tolerance from the entry of [actual] at the same index; the
    entries of [actual] beyond the length of [goal] are not looked at. *)
Theorem all_close_lists (dist : float * float * float -> float * float * float -> float)
    (cos : float -> float)
    (goal actual : list float) (tolerance : float) :
  (length goal <= length actual)%nat ->
  all_close dist cos (VList goal) (VList actual) tolerance =
  Returns (forallb (within tolerance) (combine goal actual)) /\
  forall extra,
    all_close dist cos (VList goal) (VList (actual ++ extra)) tolerance =
    all_close dist cos (VList goal) (VList actual) tolerance.
Proof.
  intros Hlen. rewrite (lists_verdict dist cos goal actual tolerance Hlen).
  split; [reflexivity |]. intros extra.
  rewrite (lists_verdict dist cos goal (actual ++ extra) tolerance)
    by (rewrite length_app; lia).
  now rewrite combine_app_r.
Qed.

Lemma all_close_lists_witness :
  all_close (fun _ _ => 0) (fun x => x) (VList [0.04; 0.04])
    (VList [0.045; 0.02; 7]) 0.01 =
  Returns (forallb (within 0.01) (combine [0.04; 0.04] [0.045; 0.02; 7])).
Proof.
  apply (proj1 (all_close_lists (fun _ _ => 0) (fun x => x)
                  [0.04; 0.04] [0.045; 0.02; 7] 0.01
                  (proj1 (Nat.leb_le 2 3) eq_refl))).
Defined.

(** X2.  When [actual] is shorter than [goal], the answer is False if one
    of the entries that [actual] does have is beyond the tolerance, and
    otherwise the call raises IndexError: a discrepancy found before the
    end of [actual] hides the missing entries. *)
Theorem all_close_short_actual (dist : float * float * float -> float * float * float -> float)
    (cos : float -> float)
    (goal actual : list float) (tolerance : float) :
  (length actual < length goal)%nat ->
  all_close dist cos (VList goal) (VList actual) tolerance =
  if forallb (within tolerance) (combine goal actual)
  then Raises IndexError else Returns false.
Proof.
  intros Hlen. cbn [all_close].
  now rewrite (compare_from_short goal actual tolerance 0 (Nat.le_0_l _) Hlen).
Qed.

Lemma all_close_short_actual_witness :
  all_close (fun _ _ => 0) (fun x => x) (VList [0.04; 0.04])
    (VList [0.5]) 0.01 =
  (if forallb (within 0.01) (combine [0.04; 0.04] [0.5])
   then Raises IndexError else Returns false).
Proof.
  apply (all_close_short_actual (fun _ _ => 0) (fun x => x)
           [0.04; 0.04] [0.5] 0.01 (proj1 (Nat.ltb_lt 1 2) eq_refl)).
Defined.

(** X3.  Readings that are not numbers pass: when every entry of [actual]
    is NaN (and there are enough of them), the answer is True for every
    goal and every tolerance. *)
Theorem all_close_accepts_nan (dist : float * float * float -> float * float * float -> float)
    (cos : float -> float)
    (goal actual : list float) (tolerance : float) :
  (length goal <= length actual)%nat ->
  (forall a, In a actual -> is_nan a = true) ->
  all_close dist cos (VList goal) (VList actual) tolerance = Returns true.
Proof.
  intros Hlen Hnan.
  rewrite (lists_verdict dist cos goal actual tolerance Hlen).
  f_equal. apply forallb_forall. intros [g a] Hin.
  apply within_nan. left. apply Hnan. eapply in_combine_r, Hin.
Qed.

Lemma all_close_accepts_nan_witness :
  all_close (fun _ _ => 0) (fun x => x) (VList [0.04; 0.04])
    (VList [nan; nan]) 0.01 = Returns true.
Proof.
  apply (all_close_accepts_nan (fun _ _ => 0) (fun x => x)
           [0.04; 0.04] [nan; nan] 0.01 (proj1 (Nat.leb_le 2 2) eq_refl)).
  intros a [<- | [<- | []]]; reflexivity.
Defined.

(** X4.  A list is close to itself for every tolerance that is not
    negative, whatever its entries (infinities and NaN included). *)
Theorem all_close_reflexive (dist : float * float * float -> float * float * float -> float)
    (cos : float -> float)
    (l : list float) (tolerance : float) :
  (tolerance <? 0) = false ->
  all_close dist cos (VList l) (VList l) tolerance = Returns true.
Proof.
  intros Htol.
  rewrite (lists_verdict dist cos l l tolerance (Nat.le_refl _)).
  f_equal. induction l as [|x l IH]; [reflexivity |].
  cbn [combine forallb]. now rewrite within_refl, IH.
Qed.

Lemma all_close_reflexive_witness :
  all_close (fun _ _ => 0) (fun x => x) (VList [0.04; infinity; nan])
    (VList [0.04; infinity; nan]) 0 = Returns true.
Proof.
  apply (all_close_reflexive (fun _ _ => 0) (fun x => x)
           [0.04; infinity; nan] 0 eq_refl).
Defined.

(** X5.  On two lists of the same length the answer does not depend on
    which one is the goal. *)
Theorem all_close_symmetric (dist : float * float * float -> float * float * float -> float)
    (cos : float -> float)
    (goal actual : list float) (tolerance : float) :
  length goal = length actual ->
  all_close dist cos (VList goal) (VList actual) tolerance =
  all_close dist cos (VList actual) (VList goal) tolerance.
Proof.
  intros Hlen.
  rewrite (lists_verdict dist cos goal actual tolerance
             (Nat.eq_le_incl _ _ Hlen)).
  rewrite (lists_verdict dist cos actual goal tolerance
             (Nat.eq_le_incl _ _ (eq_sym Hlen))).
  f_equal. clear Hlen. revert actual.
  induction goal as [|g goal IH]; intros [|a actual]; try reflexivity.
  cbn [combine forallb]. now rewrite within_swap, IH.
Qed.

Lemma all_close_symmetric_witness :
  all_close (fun _ _ => 0) (fun x => x) (VList [0.04; 0.04])
    (VList [0.045; 0.02]) 0.01 =
  all_close (fun _ _ => 0) (fun x => x) (VList [0.045; 0.02])
    (VList [0.04; 0.04]) 0.01.
Proof.
  apply (all_close_symmetric (fun _ _ => 0) (fun x => x)
           [0.04; 0.04] [0.045; 0.02] 0.01 eq_refl).
Defined.

Lemma compare_from_looser (goal actual : list float) (t t' : float) :
  (t <=? t') = true ->
  forall k,
    (compare_from k goal actual t = Returns true ->
     compare_from k goal actual t' = Returns true) /\
    (compare_from k goal actual t' = Returns false ->
     compare_from k goal actual t = Returns false).
Proof.
  intros Hle. induction goal as [|g goal IH]; intros k; cbn [compare_from].
  - split; [auto | discriminate].
  - destruct (nth_error actual k) as [a|]; [| split; discriminate].
    destruct (t' <? abs (a - g)) eqn:Hd'.
    + rewrite (leb_ltb_trans t t' _ Hle Hd'). split; [discriminate | auto].
    + destruct (t <? abs (a - g)); [split; [discriminate | auto] |].
      apply IH.
Qed.

(** X15.  Loosening the tolerance never turns True into something else,
    and tightening it never turns False into something else: for
    [t <= t'], a comparison of two lists that succeeds with [t] succeeds
    with [t'], and one that fails with [t'] fails with [t]. *)
Theorem all_close_monotone
    (dist : float * float * float -> float * float * float -> float)
    (cos : float -> float) (goal actual : list float) (t t' : float) :
  (t <=? t') = true ->
  (all_close dist cos (VList goal) (VList actual) t = Returns true ->
   all_close dist cos (VList goal) (VList actual) t' = Returns true) /\
  (all_close dist cos (VList goal) (VList actual) t' = Returns false ->
   all_close dist cos (VList goal) (VList actual) t = Returns false).
Proof.
  intros Hle. cbn [all_close]. now apply compare_from_looser.
Qed.

Lemma all_close_monotone_witness :
  all_close (fun _ _ => 0) (fun x => x) (VList [0.04; 0.04])
    (VList [0.045; 0.035]) 0.02 = Returns true.
Proof.
  apply (proj1 (all_close_monotone (fun _ _ => 0) (fun x => x)
                  [0.04; 0.04] [0.045; 0.035] 0.01 0.02 eq_refl)).
  reflexivity.
Defined.

(** The absolute value of the quaternion dot product of line 56 does not
    change when one of the two quaternions is replaced by its opposite. *)
Lemma dot_mirrored (a b c d a' b' c' d' : float) :
  mirrored (Prim2SF a) (Prim2SF a') -> mirrored (Prim2SF b) (Prim2SF b') ->
  mirrored (Prim2SF c) (Prim2SF c') -> mirrored (Prim2SF d) (Prim2SF d') ->
  abs (a + b + c + d) = abs (a' + b' + c' + d').
Proof.
  intros Ha Hb Hc Hd. apply Prim2SF_inj. rewrite !abs_spec, !add_spec.
  apply mirrored_abs. repeat apply add_mirrored; assumption.
Qed.

Lemma all_close_pose_flip
    (dist : float * float * float -> float * float * float -> float)
    (cos : float -> float) (goal actual : pose) (tolerance : float) :
  all_close_pose dist cos goal (flip actual) tolerance =
  all_close_pose dist cos goal actual tolerance /\
  all_close_pose dist cos (flip goal) actual tolerance =
  all_close_pose dist cos goal actual tolerance.
Proof.
  unfold all_close_pose, flip. cbn [px py pz ox oy oz ow].
  split.
  - rewrite (dot_mirrored (ox actual * ox goal) (oy actual * oy goal)
               (oz actual * oz goal) (ow actual * ow goal)
               (- ox actual * ox goal) (- oy actual * oy goal)
               (- oz actual * oz goal) (- ow actual * ow goal));
      try (left; apply mul_opp_l). reflexivity.
  - rewrite (dot_mirrored (ox actual * ox goal) (oy actual * oy goal)
               (oz actual * oz goal) (ow actual * ow goal)
               (ox actual * - ox goal) (oy actual * - oy goal)
               (oz actual * - oz goal) (ow actual * - ow goal));
      try (left; apply mul_opp_r). reflexivity.
Qed.

(** X6.  On poses and on stamped poses the answer is the same when the
    quaternion of either pose is replaced by its opposite, which writes
    the same orientation. *)
Theorem all_close_same_for_opposite_quaternion
    (dist : float * float * float -> float * float * float -> float)
    (cos : float -> float) (goal actual : pose) (tolerance : float) :
  all_close dist cos (VPose goal) (VPose (flip actual)) tolerance =
  all_close dist cos (VPose goal) (VPose actual) tolerance /\
  all_close dist cos (VPose (flip goal)) (VPose actual) tolerance =
  all_close dist cos (VPose goal) (VPose actual) tolerance /\
  all_close dist cos (VPoseStamped goal) (VPoseStamped (flip actual))
    tolerance =
  all_close dist cos (VPoseStamped goal) (VPoseStamped actual) tolerance /\
  all_close dist cos (VPoseStamped (flip goal)) (VPoseStamped actual)
    tolerance =
  all_close dist cos (VPoseStamped goal) (VPoseStamped actual) tolerance.
Proof.
  cbn [all_close].
  destruct (all_close_pose_flip dist cos goal actual tolerance) as [H1 H2].
  now rewrite H1, H2.
Qed.

Lemma two_set (before : list float) :
  (2 <= length before)%nat ->
  exists a b rest,
    before = a :: b :: rest /\
    list_set before 0 0.04 = Returns (0.04 :: b :: rest) /\
    list_set (0.04 :: b :: rest) 1 0.04 = Returns (0.04 :: 0.04 :: rest).
Proof.
  destruct before as [|a [|b rest]]; simpl; try lia.
  intros _. exists a, b, rest. repeat split.
Qed.

(** X7.  [open_gripper] raises IndexError, before any motion, when the
    hand reports fewer than two joints.  Otherwise the goal is the
    reading with its first two entries replaced by 0.04, and when the hand
    reports at least as many joints after the motion the value returned
    is True exactly when none of them is farther than 0.01 from the goal;
    a hand that reports the goal itself gets True. *)
Theorem open_gripper_verdict (before after : list float) :
  ((length before < 2)%nat ->
   open_gripper before after = Raises IndexError) /\
  ((2 <= length before)%nat ->
   (length before <= length after)%nat ->
   let joint_goal := 0.04 :: 0.04 :: skipn 2 before in
   open_gripper before after =
   Returns (joint_goal,
            forallb (within 0.01) (combine joint_goal after))) /\
  ((2 <= length before)%nat ->
   let joint_goal := 0.04 :: 0.04 :: skipn 2 before in
   open_gripper before joint_goal = Returns (joint_goal, true)).
Proof.
  split; [| split].
  - destruct before as [|a [|b rest]]; simpl; try lia; reflexivity.
  - intros H2 Hlen joint_goal.
    destruct (two_set before H2) as (a & b & rest & -> & H0 & H1).
    unfold open_gripper. rewrite H0, H1.
    subst joint_goal. cbn [skipn].
    rewrite (compare_from_long (0.04 :: 0.04 :: rest) after 0.01 0)
      by (simpl in *; lia).
    reflexivity.
  - intros H2 joint_goal.
    destruct (two_set before H2) as (a & b & rest & -> & H0 & H1).
    unfold open_gripper. rewrite H0, H1.
    subst joint_goal. cbn [skipn].
    rewrite (compare_from_long (0.04 :: 0.04 :: rest) _ 0.01 0)
      by (simpl; lia).
    cbn [skipn]. do 2 f_equal.
    generalize (0.04 :: 0.04 :: rest). intros l.
    induction l as [|x l IH]; [reflexivity |].
    cbn [combine forallb]. now rewrite (within_refl 0.01 x eq_refl), IH.
Qed.

Lemma open_gripper_verdict_witness :
  open_gripper [0.01; 0.01] [0.0399; 0.0401] =
  Returns ([0.04; 0.04],
           forallb (within 0.01) (combine [0.04; 0.04] [0.0399; 0.0401])).
Proof.
  apply (proj1 (proj2 (open_gripper_verdict [0.01; 0.01] [0.0399; 0.0401])));
    simpl; lia.
Defined.

End AllCloseFacts.

(** ** [wait_for_state_update]: properties *)

Module SceneWaitFacts.

Import SceneWait SceneExamples.
Local Open Scope float_scope.

Section Wait.

Variables (e : env) (box_name : String.string).
Variables (box_is_known box_is_attached : bool) (timeout : float).

Lemma wait_rounds (n : nat) :
  forall i fuel,
    (forall k, (i <= k < i + n)%nat ->
       fruitless e box_name box_is_known box_is_attached timeout k) ->
    wait_loop e box_name box_is_known box_is_attached timeout (n + fuel) i =
    wait_loop e box_name box_is_known box_is_attached timeout fuel (i + n).
Proof.
  induction n as [|n IH]; intros i fuel H.
  - now rewrite Nat.add_0_r.
  - destruct (H i) as (Hg & He & Hs); [lia |].
    cbn [Nat.add wait_loop]. rewrite Hg, He, Hs.
    rewrite IH by (intros k Hk; apply H; lia).
    f_equal. lia.
Qed.

(** X8.  After [n] rounds in which the poll did not see the expected state
    (the test of the loop holding and no sleep being interrupted), the
    call returns False if the test of the loop now fails (the time is up
    or a shutdown is requested), returns True if the test holds and the
    poll sees the expected state, and lets the exception of [rospy.sleep]
    through if the poll fails and the sleep is interrupted; in each case
    after exactly [n] sleeps. *)
Theorem wait_for_state_update_rounds (n : nat) :
  (forall k, (k < n)%nat ->
     fruitless e box_name box_is_known box_is_attached timeout k) ->
  (guard e timeout n = false ->
   forall fuel, (n <= fuel)%nat ->
     wait_for_state_update e box_name box_is_known box_is_attached timeout
       fuel = Returned false n) /\
  (guard e timeout n = true ->
   expected e box_name box_is_known box_is_attached n = true ->
   forall fuel, (n < fuel)%nat ->
     wait_for_state_update e box_name box_is_known box_is_attached timeout
       fuel = Returned true n) /\
  (guard e timeout n = true ->
   expected e box_name box_is_known box_is_attached n = false ->
   sleep_interrupted e n = true ->
   forall fuel, (n < fuel)%nat ->
     wait_for_state_update e box_name box_is_known box_is_attached timeout
       fuel = Interrupted n).
Proof.
  intros H. unfold wait_for_state_update.
  assert (H' : forall k, (0 <= k < 0 + n)%nat ->
               fruitless e box_name box_is_known box_is_attached timeout k)
    by (intros k Hk; apply H; lia).
  split; [| split].
  - intros Hg fuel Hfuel.
    replace fuel with (n + (fuel - n))%nat by lia.
    rewrite (wait_rounds n 0 _ H'). cbn [Nat.add].
    destruct (fuel - n)%nat; cbn [wait_loop]; now rewrite Hg.
  - intros Hg He fuel Hfuel.
    replace fuel with (n + S (fuel - S n))%nat by lia.
    rewrite (wait_rounds n 0 _ H'). cbn [Nat.add wait_loop].
    now rewrite Hg, He.
  - intros Hg He Hs fuel Hfuel.
    replace fuel with (n + S (fuel - S n))%nat by lia.
    rewrite (wait_rounds n 0 _ H'). cbn [Nat.add wait_loop].
    now rewrite Hg, He, Hs.
Qed.

Lemma wait_loop_sound (fuel : nat) :
  forall i b n,
    wait_loop e box_name box_is_known box_is_attached timeout fuel i =
    Returned b n ->
    (i <= n)%nat /\
    (forall k, (i <= k < n)%nat ->
       guard e timeout k = true /\
       expected e box_name box_is_known box_is_attached k = false) /\
    (if b
     then guard e timeout n = true /\
          expected e box_name box_is_known box_is_attached n = true
     else guard e timeout n = false).
Proof.
  induction fuel as [|fuel IH]; intros i b n; cbn [wait_loop];
    destruct (guard e timeout i) eqn:Hg.
  - discriminate.
  - intros [= <- <-]. repeat split; auto; intros; lia.
  - destruct (expected e box_name box_is_known box_is_attached i) eqn:He.
    + intros [= <- <-]. repeat split; auto; intros; lia.
    + destruct (sleep_interrupted e i); [discriminate |].
      intros H. apply IH in H. destruct H as (Hle & Hbefore & Hlast).
      split; [lia | split; [| exact Hlast]].
      intros k Hk. destruct (Nat.eq_dec k i) as [-> | Hne]; [auto |].
      apply Hbefore. lia.
  - intros [= <- <-]. repeat split; auto; intros; lia.
Qed.

(** X9.  Whatever the fuel, True is returned only for a poll, made while
    the test of the loop held, that saw the object attached or not and
    known or not as expected, every poll before it having failed; False
    is returned only when the test of the loop fails on the time or on a
    shutdown, and never because of what a poll saw. *)
Theorem wait_for_state_update_sound (fuel n : nat) (b : bool) :
  wait_for_state_update e box_name box_is_known box_is_attached timeout fuel
  = Returned b n ->
  (forall k, (k < n)%nat ->
     guard e timeout k = true /\
     expected e box_name box_is_known box_is_attached k = false) /\
  (b = true ->
   (get_time e (S n) - get_time e 0 <? timeout) = true /\
   is_shutdown e n = false /\
   Bool.eqb box_is_attached
     (Nat.ltb 0 (length (get_attached_objects e n))) = true /\
   Bool.eqb box_is_known
     (existsb (String.eqb box_name) (get_known_object_names e n)) = true) /\
  (b = false ->
   (get_time e (S n) - get_time e 0 <? timeout) = false \/
   is_shutdown e n = true).
Proof.
  intros H. apply wait_loop_sound in H. destruct H as (_ & Hbefore & Hlast).
  split; [| split].
  - intros k Hk. apply Hbefore. lia.
  - intros ->. destruct Hlast as [Hg He].
    unfold guard in Hg. unfold expected in He.
    apply andb_true_iff in Hg, He. destruct Hg as [Ht Hs], He as [Ha Hk].
    apply negb_true_iff in Hs. auto.
  - intros ->. unfold guard in Hlast.
    apply andb_false_iff in Hlast. destruct Hlast as [Ht | Hs]; [auto |].
    right. now apply negb_false_iff.
Qed.

End Wait.

Lemma table_appears_fruitless (k : nat) :
  (k < 1)%nat -> SceneWait.fruitless table_appears table true false 4 k.
Proof.
  intros Hk. destruct k as [|k]; [| lia]. repeat split.
Qed.

Lemma wait_for_state_update_rounds_witness :
  wait_for_state_update table_appears table true false 4 5 = Returned true 1.
Proof.
  apply (proj1 (proj2 (wait_for_state_update_rounds table_appears table
                         true false 4 1 table_appears_fruitless)));
    [reflexivity | reflexivity | lia].
Defined.

Lemma wait_for_state_update_sound_witness :
  (get_time table_appears 2 - get_time table_appears 0 <? 4) = true /\
  is_shutdown table_appears 1 = false /\
  Bool.eqb false
    (Nat.ltb 0 (length (get_attached_objects table_appears 1))) = true /\
  Bool.eqb true
    (existsb (String.eqb table) (get_known_object_names table_appears 1))
  = true.
Proof.
  apply (proj1 (proj2 (wait_for_state_update_sound table_appears table
                         true false 4 5 1 true eq_refl))).
  reflexivity.
Defined.

End SceneWaitFacts.

(** ** The screw controller: what it asks of the arm *)

Module ScrewRunFacts.

Import Screw ScrewRuns Inputs.
Local Open Scope float_scope.

Lemma arm_goals_app (l l' : list action) :
  arm_goals (l ++ l') = arm_goals l ++ arm_goals l'.
Proof.
  induction l as [|a l IH]; [reflexivity |].
  destruct a; cbn [app arm_goals]; rewrite IH; reflexivity.
Qed.

Lemma arm_goals_prelude (e : env) : arm_goals (prelude e) = [sent_goal e 0].
Proof. reflexivity. Qed.

Lemma arm_goals_body (e : env) (s : state) :
  arm_goals (body_actions e s) = [sent_goal e (S (iters s))].
Proof.
  unfold body_actions, actuate, sent_goal.
  destruct (_ <=? _); reflexivity.
Qed.

(** The goals in the log are those of the readings made so far, one for
    each, in order. *)
Lemma loop_goals (e : env) (fuel : nat) :
  forall s,
    arm_goals (log s) = map (sent_goal e) (seq 0 (S (iters s))) ->
    exists m,
      arm_goals (log_of (screw_loop e fuel s)) = map (sent_goal e) (seq 0 m).
Proof.
  induction fuel as [|fuel IH]; intros s Hs; cbn [screw_loop];
    destruct (loop_test s); try (eexists; exact Hs).
  assert (Hbody : arm_goals (log s ++ body_actions e s) =
                  map (sent_goal e) (seq 0 (S (S (iters s))))).
  { rewrite arm_goals_app, arm_goals_body, Hs.
    rewrite (seq_S (S (iters s)) 0), map_app. reflexivity. }
  destruct (screw_pos e (S (iters s))) as [z|].
  - apply IH. exact Hbody.
  - eexists. exact Hbody.
Qed.

Lemma screw_goals (e : env) (fuel : nat) :
  exists m,
    arm_goals (log_of (screw e fuel)) = map (sent_goal e) (seq 0 m).
Proof.
  unfold screw. destruct (screw_pos e 0) as [z|].
  - apply loop_goals. unfold entry. cbn [log iters].
    rewrite arm_goals_app, arm_goals_prelude. reflexivity.
  - exists 1%nat. apply arm_goals_prelude.
Qed.

(** X10.  Whatever the feed, the joint readings and the fuel, the goal
    number [i] that [screw] sends to the arm is reading number [i] with
    joints 0 to 5 as they were read and the wrist, [joint_goal[6]], set to
    -7*pi/8 (before the loop, and in a pass that read the wrist at or above
    pi/2) or to 7*pi/8 (in a pass that read it below): the controller
    never commands another joint away from where it was just read. *)
Theorem screw_moves_the_wrist_only (e : env) (fuel i : nat)
    (joint_goal : joint_values) :
  nth_error (arm_goals (log_of (screw e fuel))) i = Some joint_goal ->
  let read := joint_reads e i in
  joint_goal =
  Joints (joint0 read) (joint1 read) (joint2 read) (joint3 read)
         (joint4 read) (joint5 read)
         (match i with
          | O => -7 * np_pi / 8
          | S _ => if np_pi / 2 <=? joint6 read
                   then -7 * np_pi / 8 else 7 * np_pi / 8
          end).
Proof.
  destruct (screw_goals e fuel) as [m ->].
  rewrite nth_error_map, nth_error_seq.
  destruct (i <? m)%nat; [| discriminate].
  cbn [option_map]. intros [= <-]. reflexivity.
Qed.

Lemma screw_moves_the_wrist_only_witness :
  nth_error
    (arm_goals (log_of (screw (Env ready_arm synthetic_feed) 4))) 2 =
    Some (Joints 0 (-0.785) 0 (-2.356) 0 1.571 (-7 * np_pi / 8)) /\
  Joints 0 (-0.785) 0 (-2.356) 0 1.571 (-7 * np_pi / 8) =
  Joints (joint0 (ready_arm 2)) (joint1 (ready_arm 2)) (joint2 (ready_arm 2))
         (joint3 (ready_arm 2)) (joint4 (ready_arm 2)) (joint5 (ready_arm 2))
         (if np_pi / 2 <=? joint6 (ready_arm 2)
          then -7 * np_pi / 8 else 7 * np_pi / 8).
Proof.
  split; [evaluate |].
  apply (screw_moves_the_wrist_only (Env ready_arm synthetic_feed) 4 2).
  evaluate.
Defined.

Lemma obedient_wrist (e : env) :
  obedient e ->
  forall k, joint6 (joint_reads e (S k)) =
            if Nat.even k then -7 * np_pi / 8 else 7 * np_pi / 8.
Proof.
  intros [H1 Hnext]. induction k as [|k IH]; [exact H1 |].
  rewrite Hnext. unfold commanded. rewrite IH.
  rewrite Nat.even_succ, <- Nat.negb_even.
  destruct (Nat.even k); reflexivity.
Qed.

(** X11.  With an arm whose wrist is, at each reading, where the last
    [go] sent it, the passes alternate: the first, third, fifth ... pass
    is an Engage pass and every other pass is a Reset pass, so the
    fastener is turned in one pass out of two. *)
Theorem passes_alternate (e : env) :
  obedient e ->
  forall k,
    actuate (joint_reads e (S k)) =
    if Nat.even k
    then engage_actions (joint_reads e (S k))
    else reset_actions (joint_reads e (S k)).
Proof.
  intros H k. unfold actuate. rewrite (obedient_wrist e H k).
  destruct (Nat.even k); reflexivity.
Qed.

Lemma obedient_arm_obeys (feed : nat -> option float) :
  obedient (Env obedient_arm feed).
Proof.
  split; [reflexivity |]. intros k. unfold commanded.
  cbn [joint_reads obedient_arm joint6].
  rewrite Nat.odd_succ_succ, (Nat.odd_succ k), <- Nat.negb_odd.
  destruct (Nat.odd k); reflexivity.
Qed.

Lemma passes_alternate_witness :
  actuate (obedient_arm 4) = reset_actions (obedient_arm 4).
Proof.
  exact (passes_alternate (Env obedient_arm synthetic_feed)
           (obedient_arm_obeys synthetic_feed) 3).
Defined.

End ScrewRunFacts.

(** ** Pose synthesis: more properties *)

Module PoseMoreFacts.

Import Pose Waypoints Inputs FloatFacts FloatRelations MoreFloatFacts.
Local Open Scope float_scope.

(** X12.  With the frame of the first branch the two fixture waypoints
    have the fixture's own x and y, bit for bit (adding the offset -0.0
    changes no number), and the heights 0.57 + 0.07 and that sum less
    0.07, which is 0.5699999999999998 and not 0.57; with the frame of
    the second branch x is shifted by -0.1027 and the heights are 0.57 and
    0.57 - 0.07.  Both waypoints carry the fixture quaternion of the
    branch. *)
Theorem fixture_waypoints_by_branch (q : quat) (z_sensed : vec3)
    (fixture_pos : point) :
  sensed_axis q = Ret z_sensed ->
  exists f,
    frame_builder q = Ret f /\
    fixture_waypoints f fixture_pos =
    if isclose (c2 z_sensed) 1 then
      [Waypoint (Point (x fixture_pos) (y fixture_pos) 0.6399999999999999)
         (quaternion_from_euler np_pi 0 (tau / 8));
       Waypoint (Point (x fixture_pos) (y fixture_pos) 0.5699999999999998)
         (quaternion_from_euler np_pi 0 (tau / 8))]
    else
      [Waypoint (Point (x fixture_pos + - 0.1027) (y fixture_pos) 0.57)
         (quaternion_from_euler (- tau / 4) (- tau / 8) (- tau / 4));
       Waypoint (Point (x fixture_pos + - 0.1027) (y fixture_pos)
                   0.49999999999999994)
         (quaternion_from_euler (- tau / 4) (- tau / 8) (- tau / 4))].
Proof.
  intros Hz. unfold frame_builder. rewrite Hz. cbn [bind].
  destruct (isclose (c2 z_sensed) 1); eexists; (split; [reflexivity |]);
    unfold fixture_waypoints;
    cbn [pos_offset_fixture_x pos_offset_fixture_z q_fixture x y z].
  - rewrite add_neg_zero. reflexivity.
  - reflexivity.
Qed.

Lemma fixture_waypoints_by_branch_witness :
  exists f,
    frame_builder upright = Ret f /\
    fixture_waypoints f (Point 0.5 0.25 0.4) =
    [Waypoint (Point 0.5 0.25 0.6399999999999999)
       (quaternion_from_euler np_pi 0 (tau / 8));
     Waypoint (Point 0.5 0.25 0.5699999999999998)
       (quaternion_from_euler np_pi 0 (tau / 8))].
Proof.
  exact (fixture_waypoints_by_branch upright (V3 0 0 1) (Point 0.5 0.25 0.4)
           ltac:(evaluate)).
Defined.

(** X13.  Every input that takes the first branch gets the same grasp
    orientation, the offset quaternion of that branch (the frame being
    the identity), and no exception is raised on the way. *)
Theorem flat_nut_grasp_orientation (q : quat) (z_sensed : vec3) :
  sensed_axis q = Ret z_sensed ->
  isclose (c2 z_sensed) 1 = true ->
  grasp_orientation q =
  Ret (Quat 0.9238795325112867 (-0.3826834323650898)
            (-2.3432602026631493e-17) 5.657130561438501e-17) /\
  grasp_orientation q = Ret (quaternion_from_euler np_pi 0 (- tau / 8)).
Proof.
  intros Hz Hclose. unfold grasp_orientation, frame_builder.
  rewrite Hz. cbn [bind]. rewrite Hclose. cbn [bind]. split; evaluate.
Qed.

Lemma flat_nut_grasp_orientation_witness :
  grasp_orientation upright =
  Ret (Quat 0.9238795325112867 (-0.3826834323650898)
            (-2.3432602026631493e-17) 5.657130561438501e-17).
Proof.
  apply (flat_nut_grasp_orientation upright (V3 0 0 1)); evaluate.
Defined.

Lemma mul_zero_zero_or_nan (a : float) : zero_or_nan (Prim2SF (a * 0)).
Proof.
  rewrite mul_spec. change (Prim2SF 0) with (S754_zero false).
  destruct (Prim2SF a); exact I.
Qed.

Lemma sub_zero_or_nan (a b : float) :
  zero_or_nan (Prim2SF a) -> zero_or_nan (Prim2SF b) ->
  zero_or_nan (Prim2SF (a - b)).
Proof.
  rewrite sub_spec.
  destruct (Prim2SF a) as [sa|sa| |sa ma ea],
           (Prim2SF b) as [sb|sb| |sb mb eb]; simpl; auto;
    try contradiction.
  destruct sa, sb; simpl; auto.
Qed.

Lemma div_zero_or_nan (a n : float) :
  zero_or_nan (Prim2SF a) -> zero_or_nan (Prim2SF (a / n)).
Proof.
  rewrite div_spec.
  destruct (Prim2SF a) as [sa|sa| |sa ma ea],
           (Prim2SF n) as [sn|sn| |sn mn en]; simpl; auto;
    contradiction.
Qed.

Lemma zero_or_nan_test (v : float) :
  zero_or_nan (Prim2SF v) -> (v =? 0) = true \/ is_nan v = true.
Proof.
  rewrite is_nan_SF, FloatAxioms.eqb_spec.
  change (Prim2SF 0) with (S754_zero false).
  destruct (Prim2SF v); simpl; auto; contradiction.
Qed.

(** X14.  The x-axis of every frame that is returned is horizontal: its
    third component is a zero, or NaN when the construction broke down;
    it is never a nonzero number, whatever the input quaternion. *)
Theorem x_axis_is_horizontal (q : quat) (f : frame) :
  frame_builder q = Ret f ->
  (c2 (x_axis f) =? 0) = true \/ is_nan (c2 (x_axis f)) = true.
Proof.
  unfold frame_builder.
  destruct (sensed_axis q) as [zs|]; [| discriminate]. cbn [bind].
  destruct (isclose (c2 zs) 1); intros [= <-]; cbn [x_axis].
  - left. reflexivity.
  - apply zero_or_nan_test. cbn [vdiv cross c0 c1 c2].
    apply div_zero_or_nan, sub_zero_or_nan; apply mul_zero_zero_or_nan.
Qed.

Lemma x_axis_is_horizontal_witness :
  (c2 (V3 0 (-1) 0) =? 0) = true \/ is_nan (c2 (V3 0 (-1) 0)) = true.
Proof.
  apply (x_axis_is_horizontal on_its_side
           {| y_axis := V3 0 0 (-1);
              z_axis := V3 1 0 0;
              x_axis := V3 0 (-1) 0;
              q2 := quaternion_from_euler 0 0 (- np_pi / 4);
              pos_offset_fixture_x := - 0.1027;
              pos_offset_fixture_z := 0;
              q_fixture :=
                quaternion_from_euler (- tau / 4) (- tau / 8) (- tau / 4) |}).
  evaluate.
Defined.

End PoseMoreFacts.
